(** * watson_gui: a shallow embedding of [watson_gui.py]

    The program is a Tk front-end of the [watson] time tracker.  The
    embedding follows the source function by function:

    - [ComboboxList]: the self-extending list of tag comboboxes;
    - the parser of [watson status] in [get_current_start_time];
    - [TimerLabelUpdater]: the elapsed-time label;
    - the window-level widgets and the two command handlers
      [on_start_commanded] and [on_stop_commanded].

    Python objects that are mutated in place are kept in an explicit
    state, and the handlers run in a monad whose state survives a raised
    exception, as the widgets of a Tk application survive an exception
    in a callback. *)

From Stdlib Require Import ZArith List String Ascii Bool Lia Arith.
From Stdlib Require Import Strings.Byte Numbers.DecimalString.
Import ListNotations.

Local Open Scope string_scope.
Local Open Scope list_scope.

(** String concatenation, kept apart from the [++] of lists. *)
Infix "+++" := String.append (right associativity, at level 60).

(** ** Python values shared by the whole program *)

(** A Python [bytes] object. *)
Definition bytes := list byte.

(** The exceptions the program can meet.  [PyException msg] is the
    built-in [Exception(msg)] raised by the source itself; the others
    come from the libraries. *)
Inductive exn : Type :=
| PyException (msg : string)
| ValueError
| IndexError
| TypeError
| TclError.

(** The exception of line 54. *)
Definition ProtocolError : exn :=
  PyException "Unexpected time format returned by 'watson status' command".

(** ** State and exception monad

    [M S A] is a computation over a mutable store [S] that returns an [A]
    or raises; the store is returned in both cases. *)

Inductive outcome (A : Type) : Type :=
| Ret (a : A)
| Exc (e : exn).
Arguments Ret {A} a.
Arguments Exc {A} e.

Definition M (S A : Type) : Type := S -> outcome A * S.

Definition ret {S A} (a : A) : M S A := fun s => (Ret a, s).

Definition bind {S A B} (c : M S A) (k : A -> M S B) : M S B :=
  fun s =>
    match c s with
    | (Ret a, s') => k a s'
    | (Exc e, s') => (Exc e, s')
    end.

Definition gets {S A} (f : S -> A) : M S A := fun s => (Ret (f s), s).

Definition modify {S} (f : S -> S) : M S unit := fun s => (Ret tt, f s).

(** The store a computation leaves behind, and its outcome. *)
Definition exec {S A} (c : M S A) (s : S) : S := snd (c s).
Definition eval {S A} (c : M S A) (s : S) : outcome A := fst (c s).

Declare Scope monad_scope.
Delimit Scope monad_scope with monad.
Notation "x <- c ;; k" := (bind c (fun x => k))
  (at level 61, c at next level, right associativity) : monad_scope.
Notation "c ;; k" := (bind c (fun _ => k))
  (at level 61, right associativity) : monad_scope.
Local Open Scope monad_scope.

(** ** List helpers for Python's [list.index], indexing and [del] *)

Fixpoint remove_at {A} (i : nat) (l : list A) : list A :=
  match l, i with
  | [], _ => []
  | _ :: t, O => t
  | x :: t, S j => x :: remove_at j t
  end.

Fixpoint index_of {A} (p : A -> bool) (l : list A) : option nat :=
  match l with
  | [] => None
  | x :: t => if p x then Some O else option_map S (index_of p t)
  end.

(** ** ComboboxList (lines 88-124) *)

Module ComboboxList.

(** A [ttk.Combobox] of the list: its Tk identity, the text it shows
    (shared with its [StringVar]) and its drop-down ["values"]. *)
Record Combobox : Type := mkCombobox {
  widget : nat;
  text : string;
  values : list bytes
}.

(** The fields of [self]; [combobox_values] holds one [StringVar] per
    combobox, named after the widget it is bound to.  [next_widget]
    is the supply of fresh Tk identities. *)
Record t : Type := mk {
  comboboxes : list Combobox;
  combobox_values : list nat;
  options : list bytes;
  next_widget : nat
}.

Definition same_widget (w : nat) (c : Combobox) : bool := Nat.eqb (widget c) w.

(** [_add_item], lines 105-124: a new combobox showing [self.options],
    packed after the others, with a fresh [StringVar] traced by
    [on_combobox_selected]. *)
Definition _add_item : M t unit :=
  modify (fun l =>
    let w := next_widget l in
    {| comboboxes := comboboxes l ++ [mkCombobox w "" (options l)];
       combobox_values := combobox_values l ++ [w];
       options := options l;
       next_widget := S w |}).

(** [__init__], lines 89-95. *)
Definition init : t :=
  exec _add_item
    {| comboboxes := []; combobox_values := []; options := []; next_widget := 0 |}.

(** [set_options], lines 97-100. *)
Definition set_options (opts : list bytes) : M t unit :=
  modify (fun l =>
    {| comboboxes :=
         map (fun c => mkCombobox (widget c) (text c) opts) (comboboxes l);
       combobox_values := combobox_values l;
       options := opts;
       next_widget := next_widget l |}).

(** [combobox.get()] returns a [str] whatever the text is; the result is
    wrapped in [Some] so that the comparison with [None] of line 103 can
    be written down. *)
Definition get (c : Combobox) : option string := Some (text c).

(** Python's [x != None] on an optional string. *)
Definition ne_None (x : option string) : bool :=
  match x with
  | None => false
  | Some _ => true
  end.

(** [get_values], lines 102-103. *)
Definition get_values (l : t) : list string :=
  map text (filter (fun c => ne_None (get c)) (comboboxes l)).

(** [combobox.get()] from the closure of [on_combobox_selected]: the
    widget must still exist. *)
Definition combobox_get (w : nat) : M t string :=
  fun l =>
    match find (same_widget w) (comboboxes l) with
    | Some c => (Ret (text c), l)
    | None => (Exc TclError, l)
    end.

(** [self.comboboxes.index(combobox)]. *)
Definition comboboxes_index (w : nat) : M t nat :=
  fun l =>
    match index_of (same_widget w) (comboboxes l) with
    | Some i => (Ret i, l)
    | None => (Exc ValueError, l)
    end.

(** [del self.comboboxes[index]]. *)
Definition del_comboboxes (i : nat) : M t unit :=
  fun l =>
    if Nat.ltb i (List.length (comboboxes l)) then
      (Ret tt, {| comboboxes := remove_at i (comboboxes l);
                  combobox_values := combobox_values l;
                  options := options l;
                  next_widget := next_widget l |})
    else (Exc IndexError, l).

(** [del self.combobox_values[index]]. *)
Definition del_combobox_values (i : nat) : M t unit :=
  fun l =>
    if Nat.ltb i (List.length (combobox_values l)) then
      (Ret tt, {| comboboxes := comboboxes l;
                  combobox_values := remove_at i (combobox_values l);
                  options := options l;
                  next_widget := next_widget l |})
    else (Exc IndexError, l).

(** [self.comboboxes[i]], as a widget identity. *)
Definition comboboxes_at (i : nat) : M t nat :=
  fun l =>
    match nth_error (comboboxes l) i with
    | Some c => (Ret (widget c), l)
    | None => (Exc IndexError, l)
    end.

(** [on_combobox_selected], lines 110-119, for the combobox [w] of the
    enclosing [_add_item].  [combobox.destroy()] has nothing left to do
    once the widget is out of [self.comboboxes]. *)
Definition on_combobox_selected (w : nat) : M t unit :=
  v <- combobox_get w ;;
  n <- gets (fun l => List.length (comboboxes l)) ;;
  if String.eqb v "" && Nat.ltb 1 n then
    index <- comboboxes_index w ;;
    del_comboboxes index ;;
    del_combobox_values index
  else
    last <- comboboxes_at (n - 1) ;;
    if Nat.eqb last w then _add_item else ret tt.

(** A write to the [StringVar] of combobox [w]: the text changes, then
    the trace of line 122 calls [on_combobox_selected]. *)
Definition set_text (w : nat) (v : string) : M t unit :=
  fun l =>
    match find (same_widget w) (comboboxes l) with
    | Some _ =>
      (Ret tt, {| comboboxes :=
                    map (fun c => if same_widget w c
                                  then mkCombobox (widget c) v (values c)
                                  else c) (comboboxes l);
                  combobox_values := combobox_values l;
                  options := options l;
                  next_widget := next_widget l |})
    | None => (Exc TclError, l)
    end.

Definition write (w : nat) (v : string) : M t unit :=
  set_text w v ;; on_combobox_selected w.

(** An event on slot [w], the write of [v] to its variable, and the run
    of a sequence of events. *)
Inductive event : Type := Write (w : nat) (v : string).

Definition step (l : t) (e : event) : t :=
  match e with
  | Write w v => exec (write w v) l
  end.

Definition run (es : list event) (l : t) : t := fold_left step es l.

(** The texts shown, in slot order. *)
Definition texts (l : t) : list string := map text (comboboxes l).
Definition widgets (l : t) : list nat := map widget (comboboxes l).

(** The slots are well formed when the widgets are pairwise distinct,
    older than [next_widget], and [combobox_values] runs parallel to
    [comboboxes]. *)
Definition wf (l : t) : Prop :=
  NoDup (widgets l) /\
  combobox_values l = widgets l /\
  Forall (fun w => w < next_widget l) (widgets l).

Definition with_text (v : string) (c : Combobox) : Combobox :=
  mkCombobox (widget c) v (values c).





(** Neither list of slots changed its length or its members' identity. *)
Definition no_structural_change (l l' : t) : Prop :=
  widgets l' = widgets l /\ combobox_values l' = combobox_values l.


(** A list of two slots, both filled. *)
Definition two_filled_slots : t :=
  mk [mkCombobox 0 "a" []; mkCombobox 1 "b" []] [0; 1] [] 2.



(** Every slot offers the options the list holds. *)
Definition options_shown (l : t) : Prop :=
  Forall (fun c => values c = options l) (comboboxes l).

(** What happens to the list over its life: events on its slots, and
    calls of [set_options]. *)
Inductive op : Type :=
| Event (e : event)
| SetOptions (opts : list bytes).

Definition apply_op (l : t) (o : op) : t :=
  match o with
  | Event e => step l e
  | SetOptions opts => exec (set_options opts) l
  end.

Definition run_ops (os : list op) (l : t) : t := fold_left apply_op os l.

(** The events among the operations. *)
Fixpoint events_of (os : list op) : list event :=
  match os with
  | [] => []
  | Event e :: os' => e :: events_of os'
  | SetOptions _ :: os' => events_of os'
  end.

(** The argument of the last call of [set_options] among the
    operations, [cur] when there is none. *)
Fixpoint options_after (os : list op) (cur : list bytes) : list bytes :=
  match os with
  | [] => cur
  | Event _ :: os' => options_after os' cur
  | SetOptions opts :: os' => options_after os' opts
  end.

(** What a slot is apart from the options it offers. *)
Definition slot_key (c : Combobox) : nat * string := (widget c, text c).

(** The two lists have the same slots with the same texts, the same
    value holders and the same supply of widgets. *)
Definition same_slots (l l' : t) : Prop :=
  map slot_key (comboboxes l) = map slot_key (comboboxes l') /\
  combobox_values l = combobox_values l' /\
  next_widget l = next_widget l'.

End ComboboxList.

(** ** Python's [str] on [bytes], [in] on [str], and [re.findall] *)

Definition backslash : ascii := ascii_of_byte x5c.
Definition squote : ascii := ascii_of_byte x27.
Definition dquote : ascii := ascii_of_byte x22.
Definition newline : ascii := ascii_of_byte x0a.

Definition hexdigit (n : N) : ascii :=
  match String.get (N.to_nat n) "0123456789abcdef" with
  | Some c => c
  | None => "0"%char
  end.

(** One byte in the [repr] of a [bytes] object delimited by [quote]. *)
Definition repr_byte (quote : ascii) (b : byte) : string :=
  let c := ascii_of_byte b in
  let n := Byte.to_N b in
  if Ascii.eqb c quote || Ascii.eqb c backslash then String backslash (String c "")
  else if Byte.eqb b x09 then String backslash "t"
  else if Byte.eqb b x0a then String backslash "n"
  else if Byte.eqb b x0d then String backslash "r"
  else if (n <? 32)%N || (127 <=? n)%N then
    String backslash (String "x" (String (hexdigit (n / 16)) (String (hexdigit (n mod 16)) "")))
  else String c "".

Fixpoint repr_bytes (quote : ascii) (b : bytes) : string :=
  match b with
  | [] => ""
  | x :: t => repr_byte quote x +++ repr_bytes quote t
  end.

(** [str(b)] for [b : bytes], line 48: the [repr] of [b], in double
    quotes when [b] has a single quote and no double quote, in single
    quotes otherwise. *)
Definition repr_quote (b : bytes) : ascii :=
  if existsb (Byte.eqb x27) b && negb (existsb (Byte.eqb x22) b)
  then dquote else squote.

Definition str_bytes (b : bytes) : string :=
  String "b" (String (repr_quote b)
    (repr_bytes (repr_quote b) b +++ String (repr_quote b) "")).

(** [hay] starts with [needle]. *)
Fixpoint starts_with (needle hay : string) : bool :=
  match needle, hay with
  | "", _ => true
  | String c n, String d h => Ascii.eqb c d && starts_with n h
  | String _ _, "" => false
  end.

(** [needle in hay] on [str]. *)
Fixpoint contains (needle hay : string) : bool :=
  starts_with needle hay ||
  match hay with
  | "" => false
  | String _ t => contains needle t
  end.

(** The match of [.*?\)] at the start of [u], after an opening
    parenthesis already read into [acc]: the shortest run of characters
    other than a newline that a closing parenthesis ends.  On success
    the search goes on with [k] after the match; [fail] is the result
    when there is no match here. *)
Fixpoint match_from (k : string -> list string) (fail : list string)
    (acc u : string) {struct u} : list string :=
  match u with
  | "" => fail
  | String d u' =>
    if Ascii.eqb d ")" then (acc +++ ")") :: k u'
    else if Ascii.eqb d newline then fail
    else match_from k fail (acc +++ String d "") u'
  end.

(** [re.findall(r'\(.*?\)', s)], line 52: the matches found from left
    to right, each search starting where the last match ended. *)
Fixpoint findall_parens (s : string) : list string :=
  match s with
  | "" => []
  | String c t =>
    if Ascii.eqb c "(" then match_from findall_parens (findall_parens t) "(" t
    else findall_parens t
  end.

(** The shortest prefix of [u] that a closing parenthesis ends without
    crossing a newline, and what follows it: the search [match_from]
    makes, without the search that follows. *)
Fixpoint lazy_close (u : string) : option (string * string) :=
  match u with
  | "" => None
  | String d u' =>
    if Ascii.eqb d ")" then Some (")", u')
    else if Ascii.eqb d newline then None
    else
      match lazy_close u' with
      | Some (m, r) => Some (String d m, r)
      | None => None
      end
  end.

(** [c] occurs in [s]. *)
Fixpoint has_char (c : ascii) (s : string) : bool :=
  match s with
  | "" => false
  | String d t => Ascii.eqb d c || has_char c t
  end.

(** The text the source looks for in the output of [watson status]. *)
Definition no_project_marker : string := "No project started".

(** The marker occurs in the bytes the command printed. *)
Definition has_marker (out : bytes) : Prop :=
  exists p s, out = p ++ list_byte_of_string no_project_marker ++ s.

(** [s] ends with [suffix]. *)
Definition ends_with (suffix s : string) : Prop := exists p, s = p +++ suffix.

(** The last character of a string. *)
Fixpoint last_char (s : string) : option ascii :=
  match s with
  | "" => None
  | String c "" => Some c
  | String _ t => last_char t
  end.

(** [bytes.splitlines()], lines 59 and 63: lines end at a line feed, a
    carriage return, or a carriage return followed by a line feed; the
    line ends are dropped and a final line end opens no new line. *)
Fixpoint splitlines_from (cur : bytes) (b : bytes) : list bytes :=
  match b with
  | [] => match cur with [] => [] | _ => [cur] end
  | x :: t =>
    if Byte.eqb x x0a then cur :: splitlines_from [] t
    else if Byte.eqb x x0d then
      match t with
      | y :: t' => if Byte.eqb y x0a then cur :: splitlines_from [] t'
                   else cur :: splitlines_from [] t
      | [] => [cur]
      end
    else splitlines_from (cur ++ [x]) t
  end.

Definition splitlines (b : bytes) : list bytes := splitlines_from [] b.

(** A line of output without its line end: no line feed and no carriage
    return among the bytes. *)
Definition no_line_break (line : bytes) : Prop :=
  ~ In x0a line /\ ~ In x0d line.

(** The output that prints each label followed by the line end [eol]. *)
Definition print_lines (eol : bytes) (labels : list bytes) : bytes :=
  List.concat (map (fun label => label ++ eol) labels).

(** ** [datetime] and [timedelta] of the standard library *)

Local Open Scope Z_scope.

(** A normalised [timedelta]: [0 <= seconds < 86400] and
    [0 <= microseconds < 1000000]. *)
Record timedelta : Type := mktimedelta {
  days : Z;
  seconds : Z;
  microseconds : Z
}.

(** [timedelta(days, seconds, microseconds)] for integer arguments. *)
Definition timedelta_new (d s us : Z) : timedelta :=
  let s1 := s + us / 1000000 in
  {| days := d + s1 / 86400;
     seconds := s1 mod 86400;
     microseconds := us mod 1000000 |}.

Definition timedelta_add (a b : timedelta) : timedelta :=
  timedelta_new (days a + days b) (seconds a + seconds b)
                (microseconds a + microseconds b).

Definition timedelta_sub (a b : timedelta) : timedelta :=
  timedelta_new (days a - days b) (seconds a - seconds b)
                (microseconds a - microseconds b).

(** ["%d" % n]. *)
Definition fmt_d (n : Z) : string := NilZero.string_of_int (Z.to_int n).

Fixpoint zeros (n : nat) : string :=
  match n with
  | O => ""
  | S m => String "0" (zeros m)
  end.

(** ["%0<width>d" % n]. *)
Definition fmt_0d (width : nat) (n : Z) : string :=
  let digits := fmt_d (Z.abs n) in
  if n <? 0 then
    String "-" (zeros (width - 1 - String.length digits) +++ digits)
  else zeros (width - String.length digits) +++ digits.

(** [str(td)], as [timedelta.__str__] builds it. *)
Definition timedelta_str (td : timedelta) : string :=
  let mm := seconds td / 60 in
  let ss := seconds td mod 60 in
  let hh := mm / 60 in
  let mm := mm mod 60 in
  let s := fmt_d hh +++ ":" +++ fmt_0d 2 mm +++ ":" +++ fmt_0d 2 ss in
  let s := if days td =? 0 then s
           else fmt_d (days td) +++ " day" +++
                (if Z.abs (days td) =? 1 then "" else "s") +++ ", " +++ s in
  if microseconds td =? 0 then s
  else s +++ "." +++ fmt_0d 6 (microseconds td).

(** A [datetime]; [tzinfo] is [None] for a naive value and the UTC
    offset of its fixed-offset [timezone] otherwise. *)
Record datetime : Type := mkdatetime {
  year : Z;
  month : Z;
  day : Z;
  hour : Z;
  minute : Z;
  second : Z;
  microsecond : Z;
  tzinfo : option timedelta
}.

(** [dt.replace(tzinfo=None)], line 55. *)
Definition replace_tzinfo_None (dt : datetime) : datetime :=
  mkdatetime (year dt) (month dt) (day dt) (hour dt) (minute dt)
             (second dt) (microsecond dt) None.

(** [dt.replace(microsecond=0)], line 83. *)
Definition replace_microsecond_0 (dt : datetime) : datetime :=
  mkdatetime (year dt) (month dt) (day dt) (hour dt) (minute dt)
             (second dt) 0 (tzinfo dt).

Definition is_leap (y : Z) : bool :=
  (y mod 4 =? 0) && (negb (y mod 100 =? 0) || (y mod 400 =? 0)).

Definition days_before_year (y : Z) : Z :=
  let y := y - 1 in y * 365 + y / 4 - y / 100 + y / 400.

Definition days_in_month (y m : Z) : Z :=
  if m =? 2 then (if is_leap y then 29 else 28)
  else if (m =? 4) || (m =? 6) || (m =? 9) || (m =? 11) then 30
  else 31.

Fixpoint days_before_month_upto (y : Z) (n : nat) : Z :=
  match n with
  | O => 0
  | S k => days_before_month_upto y k + days_in_month y (Z.of_nat (S k))
  end.

(** Days of the year before the first day of month [m]. *)
Definition days_before_month (y m : Z) : Z :=
  days_before_month_upto y (Z.to_nat (m - 1)).

(** [dt.toordinal()]. *)
Definition toordinal (dt : datetime) : Z :=
  days_before_year (year dt) + days_before_month (year dt) (month dt) + day dt.

Definition option_timedelta_eqb (a b : option timedelta) : bool :=
  match a, b with
  | None, None => true
  | Some x, Some y =>
    (days x =? days y) && (seconds x =? seconds y) &&
    (microseconds x =? microseconds y)
  | _, _ => false
  end.

(** [a - b] on [datetime]: the difference of the wall clocks when the
    offsets agree, [TypeError] when only one operand has an offset. *)
Definition datetime_sub (a b : datetime) : outcome timedelta :=
  let base :=
    timedelta_new (toordinal a - toordinal b)
      ((second a + minute a * 60 + hour a * 3600) -
       (second b + minute b * 60 + hour b * 3600))
      (microsecond a - microsecond b) in
  if option_timedelta_eqb (tzinfo a) (tzinfo b) then Ret base
  else
    match tzinfo a, tzinfo b with
    | Some myoff, Some otoff => Ret (timedelta_sub (timedelta_add base otoff) myoff)
    | _, _ => Exc TypeError
    end.

(** The seconds on the wall clock of [dt], counted from the start of
    the calendar. *)
Definition wall_seconds (dt : datetime) : Z :=
  toordinal dt * 86400 + hour dt * 3600 + minute dt * 60 + second dt.

(** Following the specification's words, the rendering of [n] elapsed
    seconds as hours:minutes:seconds with unbounded hours. *)
Definition hours_minutes_seconds (n : Z) : string :=
  fmt_d (n / 3600) +++ ":" +++ fmt_0d 2 (n / 60 mod 60) +++ ":" +++
  fmt_0d 2 (n mod 60).

(** The words [timedelta.__str__] puts before the time of day when the
    number of days is not zero. *)
Definition days_prefix (d : Z) : string :=
  if d =? 0 then ""
  else fmt_d d +++ " day" +++ (if Z.abs d =? 1 then "" else "s") +++ ", ".

Local Close Scope Z_scope.

(** ** The program over its two collaborators *)

(** The format the source hands to [strptime]. *)
Definition status_time_format : string := "(%Y.%m.%d %H:%M:%S%z)".

(** The second field of the window: "Now" or "Last stop time", the two
    values of the read-only [start_at_combo]. *)
Inductive StartAt : Type := Now | LastStopTime.

(** [start_at_combo.current()]: the index of the chosen value. *)
Definition current (c : StartAt) : Z :=
  match c with
  | Now => 0%Z
  | LastStopTime => 1%Z
  end.

Inductive button : Type := StartButton | StopButton.

(** What the program does to the outside and to its widgets, in the
    order it does it. *)
Inductive effect : Type :=
| Run (command : string)
| ShowError (message : string)
| ShowMessageDialog (message : bytes)
| SetProjectValues (values : list bytes)
| SetTagOptions (options : list bytes)
| SetStartTime (start_time : option datetime)
| SetButtonEnabled (b : button) (enabled : bool).

(** ** TimerLabelUpdater (lines 73-85) *)

Module TimerLabelUpdater.

Record t : Type := mk {
  label_text : string;
  start_time : option datetime
}.

(** [set_start_time], lines 79-80. *)
Definition set_start_time (st : option datetime) : M t unit :=
  modify (fun u => mk (label_text u) st).

(** [_update_label], lines 82-85, at the naive local time [now] read by
    [datetime.now()].  Asking Tk to call it again a second later is left
    to the event loop. *)
Definition _update_label (now : datetime) : M t unit :=
  fun u =>
    let dt :=
      match start_time u with
      | Some st => datetime_sub (replace_microsecond_0 now) st
      | None => Ret (timedelta_new 0 0 0)
      end in
    match dt with
    | Ret d => (Ret tt, mk (timedelta_str d) (start_time u))
    | Exc e => (Exc e, u)
    end.

(** [__init__], lines 74-77. *)
Definition init (now : datetime) (st : option datetime) : outcome unit * t :=
  _update_label now (mk "" st).

End TimerLabelUpdater.

(** Following the specification's words, a command line carries the
    no-gap flag when [--no-gap] is one of its words, the runs of
    characters between single spaces. *)
Fixpoint words_from (cur s : string) : list string :=
  match s with
  | "" => [cur]
  | String c t =>
    if Ascii.eqb c " " then cur :: words_from "" t
    else words_from (cur +++ String c "") t
  end.

Definition words (s : string) : list string := words_from "" s.

Definition carries_no_gap (command : string) : bool :=
  existsb (String.eqb "--no-gap") (words command).

(** A start time without an offset, or no start time. *)
Definition naive (st : option datetime) : Prop :=
  match st with
  | Some d => tzinfo d = None
  | None => True
  end.

(** The command lines of the source: those of lines 19, 23, 40, 44, 48,
    59 and 63. *)
Definition known_command (c : string) : bool :=
  starts_with "watson start " c || String.eqb c "watson stop" ||
  String.eqb c "watson log" || String.eqb c "watson report --csv" ||
  String.eqb c "watson status" || String.eqb c "watson projects" ||
  String.eqb c "watson tags".

(** The commands among the effects, in order. *)
Fixpoint commands (l : list effect) : list string :=
  match l with
  | [] => []
  | Run c :: l' => c :: commands l'
  | _ :: l' => commands l'
  end.

Section Program.

(** [datetime.strptime(text, format)] of the standard library; [None]
    stands for the [ValueError] it raises on a text that does not match
    the format. *)
Variable strptime : string -> string -> option datetime.

(** The external tool: [subprocess_run command w] is the standard
    output of [command] and the tool's state after it, from state [w].
    [subprocess.run] raises [OSError] when the program cannot be
    started; the development is about a tool that is installed and
    answers every command, and says nothing of a tool that is not. *)
Context {tracker : Type}.
Variable subprocess_run : string -> tracker -> bytes * tracker.

(** Lines 48-55 of [get_current_start_time], on the bytes that
    [execute_command("watson status")] returned. *)
Definition start_time_of_status (out : bytes) : outcome (option datetime) :=
  let result := str_bytes out in
  if contains no_project_marker result then Ret None
  else
    let time_result := findall_parens result in
    if negb (Nat.eqb (List.length time_result) 1) then Exc ProtocolError
    else
      match nth_error time_result 0 with
      | Some m =>
        match strptime m status_time_format with
        | Some dt => Ret (Some (replace_tzinfo_None dt))
        | None => Exc ValueError
        end
      | None => Exc IndexError
      end.

(** The window: the external tool, the widgets the handlers read and
    write, and the log of effects, oldest first. *)
Record App : Type := mkApp {
  watson : tracker;
  log : list effect;
  project_combo_text : string;
  project_combo_values : list bytes;
  tags_list : ComboboxList.t;
  start_at_combo : StartAt;
  time_label_updater : TimerLabelUpdater.t;
  start_button_enabled : bool;
  stop_button_enabled : bool
}.

Definition emit (e : effect) : M App unit :=
  modify (fun a =>
    mkApp (watson a) (log a ++ [e]) (project_combo_text a)
          (project_combo_values a) (tags_list a) (start_at_combo a)
          (time_label_updater a) (start_button_enabled a)
          (stop_button_enabled a)).

(** [subprocess.run(command, ...)]. *)
Definition run_command (command : string) : M App bytes :=
  fun a =>
    let (out, w) := subprocess_run command (watson a) in
    (Ret out,
     mkApp w (log a ++ [Run command]) (project_combo_text a)
           (project_combo_values a) (tags_list a) (start_at_combo a)
           (time_label_updater a) (start_button_enabled a)
           (stop_button_enabled a)).

(** A computation on the tag list, run on the window. *)
Definition on_tags_list {A} (c : M ComboboxList.t A) : M App A :=
  fun a =>
    let (r, l) := c (tags_list a) in
    (r, mkApp (watson a) (log a) (project_combo_text a)
              (project_combo_values a) l (start_at_combo a)
              (time_label_updater a) (start_button_enabled a)
              (stop_button_enabled a)).

(** A computation on the timer label, run on the window. *)
Definition on_time_label_updater {A} (c : M TimerLabelUpdater.t A) : M App A :=
  fun a =>
    let (r, u) := c (time_label_updater a) in
    (r, mkApp (watson a) (log a) (project_combo_text a)
              (project_combo_values a) (tags_list a) (start_at_combo a)
              u (start_button_enabled a) (stop_button_enabled a)).

(** The flag of line 18; [no_gap] is the integer [on_start_commanded]
    passes, true when it is not zero. *)
Definition no_gap_str (no_gap : Z) : string :=
  if (no_gap =? 0)%Z then "" else "--no-gap".

(** [start_frame], lines 16-19. *)
Definition start_frame_command (project : string) (tags : list string)
    (no_gap : Z) : string :=
  let tag_strs := map (fun tag => "+" +++ tag) tags in
  "watson start " +++ project +++ " " +++ String.concat " " tag_strs
    +++ " " +++ no_gap_str no_gap.

Definition start_frame (project : string) (tags : list string) (no_gap : Z)
  : M App unit :=
  run_command (start_frame_command project tags no_gap) ;; ret tt.

(** [stop_frame], lines 22-23. *)
Definition stop_frame : M App unit :=
  run_command "watson stop" ;; ret tt.

(** [execute_command], lines 26-27. *)
Definition execute_command (command : string) : M App bytes :=
  run_command command.

(** [show_message_dialog], [show_log] and [show_csv], lines 30-44. *)
Definition show_message_dialog (message : bytes) : M App unit :=
  emit (ShowMessageDialog message).

Definition show_log : M App unit :=
  out <- execute_command "watson log" ;; show_message_dialog out.

Definition show_csv : M App unit :=
  out <- execute_command "watson report --csv" ;; show_message_dialog out.

(** [get_current_start_time], lines 47-55. *)
Definition get_current_start_time : M App (option datetime) :=
  out <- execute_command "watson status" ;;
  fun a => (start_time_of_status out, a).

(** [get_projects] and [get_tags], lines 58-63. *)
Definition get_projects : M App (list bytes) :=
  out <- execute_command "watson projects" ;; ret (splitlines out).

Definition get_tags : M App (list bytes) :=
  out <- execute_command "watson tags" ;; ret (splitlines out).

(** [set_button_enabled], lines 66-70. *)
Definition set_button_enabled (b : button) (enabled : bool) : M App unit :=
  modify (fun a =>
    mkApp (watson a) (log a) (project_combo_text a)
          (project_combo_values a) (tags_list a) (start_at_combo a)
          (time_label_updater a)
          (match b with StartButton => enabled | StopButton => start_button_enabled a end)
          (match b with StopButton => enabled | StartButton => stop_button_enabled a end)) ;;
  emit (SetButtonEnabled b enabled).

(** [project_combo["values"] = values], line 182. *)
Definition set_project_values (values : list bytes) : M App unit :=
  modify (fun a =>
    mkApp (watson a) (log a) (project_combo_text a) values (tags_list a)
          (start_at_combo a) (time_label_updater a)
          (start_button_enabled a) (stop_button_enabled a)) ;;
  emit (SetProjectValues values).

(** [tags_list.set_options(options)], line 183. *)
Definition set_tag_options (options : list bytes) : M App unit :=
  on_tags_list (ComboboxList.set_options options) ;;
  emit (SetTagOptions options).

(** [time_label_updater.set_start_time(start_time)], lines 175, 184. *)
Definition set_start_time (st : option datetime) : M App unit :=
  on_time_label_updater (TimerLabelUpdater.set_start_time st) ;;
  emit (SetStartTime st).

(** The command line [on_start_commanded] hands to [start_frame] for
    the window [a], line 174. *)
Definition start_command_of (a : App) : string :=
  start_frame_command (project_combo_text a)
    (ComboboxList.get_values (tags_list a)) (current (start_at_combo a)).

(** [on_start_commanded], lines 169-177. *)
Definition on_start_commanded : M App unit :=
  project <- gets project_combo_text ;;
  if String.eqb project "" then
    emit (ShowError "Project name cannot be empty")
  else
    tags <- gets (fun a => ComboboxList.get_values (tags_list a)) ;;
    no_gap <- gets (fun a => current (start_at_combo a)) ;;
    start_frame project tags no_gap ;;
    st <- get_current_start_time ;;
    set_start_time st ;;
    set_button_enabled StartButton false ;;
    set_button_enabled StopButton true.

(** [on_stop_commanded], lines 180-186. *)
Definition on_stop_commanded : M App unit :=
  stop_frame ;;
  projects <- get_projects ;;
  set_project_values projects ;;
  tags <- get_tags ;;
  set_tag_options tags ;;
  set_start_time None ;;
  set_button_enabled StartButton true ;;
  set_button_enabled StopButton false.

(** The text a combobox shows for a [bytes] value: one character per
    byte. *)
Definition shown (b : bytes) : string := string_of_list_byte b.

(** The module-level code, lines 127-190, from the tool in state [w] and
    with [now] the time of the first [_update_label]. *)
Definition startup (now : datetime) (w : tracker) : outcome unit * App :=
  (projects <- get_projects ;;
   set_project_values projects ;;
   modify (fun a =>
     mkApp (watson a) (log a)
           (match projects with [] => "" | p :: _ => shown p end)
           (project_combo_values a) (tags_list a) (start_at_combo a)
           (time_label_updater a) (start_button_enabled a)
           (stop_button_enabled a)) ;;
   tags <- get_tags ;;
   set_tag_options tags ;;
   current_start_time <- get_current_start_time ;;
   on_time_label_updater
     (fun _ => TimerLabelUpdater.init now current_start_time) ;;
   set_button_enabled StartButton
     (match current_start_time with None => true | Some _ => false end) ;;
   set_button_enabled StopButton
     (match current_start_time with None => false | Some _ => true end))
  (mkApp w [] "" [] ComboboxList.init Now (TimerLabelUpdater.mk "" None)
         false false).

(** What the user and the clock do to the window.  A click on a
    disabled button calls nothing. *)
Inductive action : Type :=
| TypeProject (s : string)
| ChooseStartAt (c : StartAt)
| EditTag (w : nat) (v : string)
| ClickStart
| ClickStop
| ClickShowLog
| ClickShowCsv
| Tick (now : datetime).

Definition handle (x : action) : M App unit :=
  match x with
  | TypeProject s =>
    modify (fun a =>
      mkApp (watson a) (log a) s (project_combo_values a) (tags_list a)
            (start_at_combo a) (time_label_updater a)
            (start_button_enabled a) (stop_button_enabled a))
  | ChooseStartAt c =>
    modify (fun a =>
      mkApp (watson a) (log a) (project_combo_text a)
            (project_combo_values a) (tags_list a) c
            (time_label_updater a) (start_button_enabled a)
            (stop_button_enabled a))
  | EditTag w v => on_tags_list (ComboboxList.write w v)
  | ClickStart =>
    enabled <- gets start_button_enabled ;;
    if enabled then on_start_commanded else ret tt
  | ClickStop =>
    enabled <- gets stop_button_enabled ;;
    if enabled then on_stop_commanded else ret tt
  | ClickShowLog => show_log
  | ClickShowCsv => show_csv
  | Tick now => on_time_label_updater (TimerLabelUpdater._update_label now)
  end.

(** The windows the program can be in: the one [startup] builds when it
    returns, and those the actions lead to. *)
Inductive reachable : App -> Prop :=
| reachable_startup now w a :
    startup now w = (Ret tt, a) -> reachable a
| reachable_handle a x :
    reachable a -> reachable (exec (handle x) a).

(** The two properties of the buttons the specification names: one of
    them is enabled and the other is not, and Start is the enabled one
    exactly when the timer has no start time. *)
Definition one_button_enabled (a : App) : Prop :=
  start_button_enabled a = negb (stop_button_enabled a).

Definition buttons_mirror_session (a : App) : Prop :=
  start_button_enabled a = true <->
  TimerLabelUpdater.start_time (time_label_updater a) = None.

(** What every handler keeps of a window: the tag list has been
    reached from the new one by events and calls of [set_options], the
    start time of the timer has no offset, and the commands run so far
    are the source's. *)
Definition window_kept (a : App) : Prop :=
  (exists os, tags_list a = ComboboxList.run_ops os ComboboxList.init) /\
  naive (TimerLabelUpdater.start_time (time_label_updater a)) /\
  Forall (fun c => known_command c = true) (commands (log a)).

(** The actions that involve no command of the tool: an edit of a slot
    the tag list shows, and a tick that reads the clock of
    [datetime.now()], which has no offset. *)
Definition tick_or_edit (a : App) (x : action) : Prop :=
  match x with
  | EditTag w _ => In w (ComboboxList.widgets (tags_list a))
  | Tick now => tzinfo now = None
  | _ => False
  end.

End Program.

Arguments App : clear implicits.

(** ** Stand-ins for the collaborators, to run the program on

    The theorems hold for any [strptime] and any tool; the two
    definitions below give one of each, so that the program can be
    evaluated on concrete outputs. *)

Definition digit_value (c : ascii) : option Z :=
  let n := nat_of_ascii c in
  if Nat.leb 48 n && Nat.leb n 57 then Some (Z.of_nat (n - 48)) else None.

Fixpoint number_from (acc : Z) (s : string) : option Z :=
  match s with
  | "" => Some acc
  | String c t =>
    match digit_value c with
    | Some d => number_from (acc * 10 + d)%Z t
    | None => None
    end
  end.

(** The digits of [text] at [start], [len] of them, as a number. *)
Definition field (start len : nat) (text : string) : option Z :=
  number_from 0%Z (substring start len text).

Definition char_at (i : nat) (text : string) (c : ascii) : bool :=
  match String.get i text with
  | Some d => Ascii.eqb d c
  | None => false
  end.

(** A [strptime] for the fixed-width texts [(YYYY.MM.DD HH:MM:SS+ZZZZ)]
    that [watson status] prints, and for the format of line 55 only. *)
Definition strptime_fixed (text format : string) : option datetime :=
  if negb (String.eqb format status_time_format) then None
  else if negb (Nat.eqb (String.length text) 26) then None
  else if negb (char_at 0 text "(" && char_at 5 text "." && char_at 8 text "."
                && char_at 11 text " " && char_at 14 text ":"
                && char_at 17 text ":" && char_at 25 text ")"
                && (char_at 20 text "+" || char_at 20 text "-")) then None
  else
    match field 1 4 text, field 6 2 text, field 9 2 text, field 12 2 text,
          field 15 2 text, field 18 2 text, field 21 2 text, field 23 2 text with
    | Some y, Some mo, Some d, Some h, Some mi, Some s, Some zh, Some zm =>
      if ((1 <=? y) && (1 <=? mo) && (mo <=? 12) && (1 <=? d)
          && (d <=? days_in_month y mo) && (h <? 24) && (mi <? 60)
          && (s <? 60) && (zh <? 24) && (zm <? 60))%Z
      then
        let off := (zh * 3600 + zm * 60)%Z in
        Some (mkdatetime y mo d h mi s 0
                (Some (timedelta_new 0
                         (if char_at 20 text "-" then (- off)%Z else off) 0)))
      else None
    | _, _, _, _, _, _, _, _ => None
    end.

(** A tool with one bit of state, whether a frame is running; it
    starts a frame on [watson start ...] when [obeys] is set, and not
    at all otherwise. *)
Definition sim_watson (obeys : bool) (command : string) (running : bool)
  : bytes * bool :=
  if starts_with "watson start " command then ([], obeys || running)
  else if String.eqb command "watson stop" then ([], false)
  else if String.eqb command "watson status" then
    (list_byte_of_string
       (if running
        then "Project Alpha [x, y] started just now (2023.01.01 10:00:00+0100)"
        else "No project started.") ++ [x0d; x0a],
     running)
  else if String.eqb command "watson projects" then
    (list_byte_of_string "Alpha" ++ [x0d; x0a] ++
     list_byte_of_string "Beta" ++ [x0d; x0a], running)
  else if String.eqb command "watson tags" then
    (list_byte_of_string "x" ++ [x0d; x0a] ++
     list_byte_of_string "y" ++ [x0d; x0a], running)
  else ([], running).

(** Windows used in the examples: one with no project typed, one about
    to start "Alpha" with two tags after the last stop, and the window
    a tool that starts nothing leaves after a click on Start. *)
Definition idle_window (project : string) (tags : ComboboxList.t)
    (c : StartAt) : App bool :=
  mkApp false [] project [] tags c (TimerLabelUpdater.mk "0:00:00" None)
        true false.

Definition two_tags : ComboboxList.t :=
  ComboboxList.run [ComboboxList.Write 0 "x"; ComboboxList.Write 1 "y"]
    ComboboxList.init.

(** The clock readings used in the examples. *)
Definition at_10_00_00 : datetime := mkdatetime 2023 1 1 10 0 0 0 None.
Definition at_10_02_05 : datetime := mkdatetime 2023 1 1 10 2 5 730000 None.
Definition next_day_10_00_00 : datetime := mkdatetime 2023 1 2 10 0 0 0 None.

(** Outputs of [watson status] used in the examples. *)
Definition status_idle : bytes := fst (sim_watson true "watson status" false).
Definition status_running : bytes := fst (sim_watson true "watson status" true).
Definition status_two_groups : bytes :=
  list_byte_of_string
    "Project Alpha (beta) started just now (2023.01.01 10:00:00+0100)".
Definition status_not_a_time : bytes :=
  list_byte_of_string "Project Alpha started (bar)".

(** A tool without state whose answer to [watson status] has two
    parenthesised runs. *)
Definition garbled_watson (command : string) (w : unit) : bytes * unit :=
  (if String.eqb command "watson status" then status_two_groups else [], w).

Definition garbled_window : App unit :=
  mkApp tt [] "Alpha" [] ComboboxList.init Now
        (TimerLabelUpdater.mk "0:00:00" None) true false.

Definition refused_start : App bool :=
  exec (handle strptime_fixed (sim_watson false) ClickStart)
       (snd (startup strptime_fixed (sim_watson false) at_10_00_00 false)).

Definition started_window : App bool :=
  exec (handle strptime_fixed (sim_watson true) ClickStart)
       (snd (startup strptime_fixed (sim_watson true) at_10_00_00 false)).

(** Following the specification's words, the timestamp occurrences of a
    status text: the places where a text of the pattern
    [(YYYY.MM.DD HH:MM:SS+ZZZZ)], 26 characters long, stands. *)
Fixpoint timestamp_occurrences (s : string) : nat :=
  (match strptime_fixed (substring 0 26 s) status_time_format with
   | Some _ => 1
   | None => 0
   end) +
  match s with
  | "" => 0
  | String _ t => timestamp_occurrences t
  end.

(** * Theorems *)

(** ** Monad and list facts *)

Lemma remove_at_app {A} (pre : list A) (x : A) (post : list A) :
  remove_at (List.length pre) (pre ++ x :: post) = pre ++ post.
Proof.
  induction pre as [|y pre IH]; simpl; [reflexivity|].
  now rewrite IH.
Qed.

Lemma index_of_app {A} (p : A -> bool) (pre : list A) (x : A) (post : list A) :
  forallb (fun y => negb (p y)) pre = true -> p x = true ->
  index_of p (pre ++ x :: post) = Some (List.length pre).
Proof.
  induction pre as [|y pre IH]; simpl; intros Hpre Hx.
  - now rewrite Hx.
  - apply andb_prop in Hpre as [Hy Hpre].
    apply negb_true_iff in Hy. rewrite Hy, IH by assumption. reflexivity.
Qed.

Lemma find_app {A} (p : A -> bool) (pre : list A) (x : A) (post : list A) :
  forallb (fun y => negb (p y)) pre = true -> p x = true ->
  find p (pre ++ x :: post) = Some x.
Proof.
  induction pre as [|y pre IH]; simpl; intros Hpre Hx.
  - now rewrite Hx.
  - apply andb_prop in Hpre as [Hy Hpre].
    apply negb_true_iff in Hy. now rewrite Hy, IH.
Qed.

Module ComboboxListFacts.
Import ComboboxList.

Lemma others_before (w : nat) (cs : list Combobox) :
  ~ In w (map widget cs) -> forallb (fun y => negb (same_widget w y)) cs = true.
Proof.
  induction cs as [|c cs IH]; simpl; [reflexivity|]. intros H.
  rewrite IH by tauto. unfold same_widget.
  destruct (Nat.eqb_spec (widget c) w); [tauto|reflexivity].
Qed.

Lemma retext_others (w : nat) (v : string) (cs : list Combobox) :
  ~ In w (map widget cs) ->
  map (fun c => if same_widget w c then mkCombobox (widget c) v (values c) else c) cs = cs.
Proof.
  induction cs as [|c cs IH]; simpl; [reflexivity|]. intros H.
  rewrite IH by tauto. unfold same_widget.
  destruct (Nat.eqb_spec (widget c) w); [tauto|reflexivity].
Qed.

Lemma wf_split (l : t) (pre : list Combobox) (c : Combobox) (post : list Combobox) :
  wf l -> comboboxes l = pre ++ c :: post ->
  ~ In (widget c) (map widget pre) /\ ~ In (widget c) (map widget post).
Proof.
  intros (Hnd & _ & _) Hcs. unfold widgets in Hnd. rewrite Hcs, map_app in Hnd.
  simpl in Hnd. apply NoDup_remove_2 in Hnd. rewrite in_app_iff in Hnd. tauto.
Qed.

(** The text of slot [c] after [set_text]. *)
Lemma set_text_split (l : t) pre c post v :
  wf l -> comboboxes l = pre ++ c :: post ->
  set_text (widget c) v l =
    (Ret tt, mk (pre ++ with_text v c :: post) (combobox_values l)
               (options l) (next_widget l)).
Proof.
  intros Hwf Hcs. destruct (wf_split l pre c post Hwf Hcs) as [Hpre Hpost].
  unfold set_text. rewrite Hcs.
  rewrite (find_app _ pre c post (others_before _ _ Hpre))
    by (unfold same_widget; apply Nat.eqb_refl).
  rewrite map_app. simpl. rewrite !retext_others by assumption.
  unfold same_widget at 1. rewrite Nat.eqb_refl. reflexivity.
Qed.

Lemma combobox_get_split (cs : list Combobox) vs os nw pre c post :
  cs = pre ++ c :: post -> ~ In (widget c) (map widget pre) ->
  combobox_get (widget c) (mk cs vs os nw) = (Ret (text c), mk cs vs os nw).
Proof.
  intros -> Hpre. unfold combobox_get. simpl.
  rewrite (find_app _ pre c post (others_before _ _ Hpre))
    by (unfold same_widget; apply Nat.eqb_refl).
  reflexivity.
Qed.

(** Clearing a slot while another slot exists removes it from both
    lists. *)
Lemma write_remove (l : t) pre c post :
  wf l -> comboboxes l = pre ++ c :: post -> pre ++ post <> [] ->
  write (widget c) "" l =
    (Ret tt, mk (pre ++ post) (map widget (pre ++ post))
               (options l) (next_widget l)).
Proof.
  intros Hwf Hcs Hne. destruct (wf_split l pre c post Hwf Hcs) as [Hpre Hpost].
  unfold write, bind. rewrite (set_text_split l pre c post "" Hwf Hcs).
  destruct Hwf as (_ & Hvals & _).
  unfold on_combobox_selected, bind.
  rewrite (combobox_get_split _ _ _ _ pre (with_text "" c) post eq_refl Hpre).
  cbn [gets comboboxes text with_text String.eqb andb].
  assert (Hlen : Nat.ltb 1 (List.length (pre ++ with_text "" c :: post)) = true).
  { apply Nat.ltb_lt. rewrite length_app. simpl.
    destruct pre, post; simpl; try lia. now elim Hne. }
  rewrite Hlen. unfold comboboxes_index. cbn [comboboxes].
  rewrite (index_of_app _ pre _ post (others_before _ _ Hpre))
    by (unfold same_widget; apply Nat.eqb_refl).
  unfold del_comboboxes. cbn [comboboxes combobox_values options next_widget].
  assert (Hlt : Nat.ltb (List.length pre) (List.length (pre ++ with_text "" c :: post)) = true).
  { apply Nat.ltb_lt. rewrite length_app. simpl. lia. }
  rewrite Hlt, remove_at_app.
  unfold del_combobox_values. cbn [comboboxes combobox_values options next_widget].
  rewrite Hvals. unfold widgets. rewrite Hcs, map_app. simpl.
  rewrite <- (length_map widget pre).
  assert (Hlt' : Nat.ltb (List.length (map widget pre))
                   (List.length (map widget pre ++ widget c :: map widget post)) = true).
  { apply Nat.ltb_lt. rewrite length_app. simpl. lia. }
  rewrite Hlt', remove_at_app, map_app. reflexivity.
Qed.


Lemma guard_false (v : string) (n : nat) :
  v <> "" \/ n <= 1 -> String.eqb v "" && Nat.ltb 1 n = false.
Proof.
  intros [Hv | Hn].
  - apply String.eqb_neq in Hv. now rewrite Hv.
  - apply andb_false_iff. right. apply Nat.ltb_ge. exact Hn.
Qed.

(** A text written to the last slot, unless it empties one of several
    slots, makes [_add_item] run. *)
Lemma write_last (l : t) pre c v :
  wf l -> comboboxes l = pre ++ [c] -> v <> "" \/ pre = [] ->
  write (widget c) v l =
    (Ret tt, mk (pre ++ [with_text v c; mkCombobox (next_widget l) "" (options l)])
               (combobox_values l ++ [next_widget l])
               (options l) (S (next_widget l))).
Proof.
  intros Hwf Hcs Hv. destruct (wf_split l pre c [] Hwf Hcs) as [Hpre _].
  unfold write, bind. rewrite (set_text_split l pre c [] v Hwf Hcs).
  unfold on_combobox_selected, bind.
  rewrite (combobox_get_split _ _ _ _ pre (with_text v c) [] eq_refl Hpre).
  cbn [gets comboboxes text with_text].
  rewrite guard_false.
  2:{ destruct Hv as [Hv | ->]; [now left | right; simpl; lia]. }
  unfold comboboxes_at. cbn [comboboxes].
  rewrite length_app. simpl List.length.
  replace (List.length pre + 1 - 1) with (List.length pre) by lia.
  rewrite nth_error_app2, Nat.sub_diag by lia. cbn [nth_error widget].
  rewrite Nat.eqb_refl. unfold _add_item, modify.
  cbn [comboboxes combobox_values options next_widget].
  rewrite <- app_assoc. reflexivity.
Qed.

(** A non-empty text written to a slot that is not the last changes
    that text only. *)
Lemma write_interior (l : t) pre c post v :
  wf l -> comboboxes l = pre ++ c :: post -> post <> [] -> v <> "" ->
  write (widget c) v l =
    (Ret tt, mk (pre ++ with_text v c :: post) (combobox_values l)
               (options l) (next_widget l)).
Proof.
  intros Hwf Hcs Hpost Hv.
  destruct (wf_split l pre c post Hwf Hcs) as [Hpre Hnotin].
  unfold write, bind. rewrite (set_text_split l pre c post v Hwf Hcs).
  unfold on_combobox_selected, bind.
  rewrite (combobox_get_split _ _ _ _ pre (with_text v c) post eq_refl Hpre).
  cbn [gets comboboxes text with_text].
  rewrite guard_false by now left.
  unfold comboboxes_at. cbn [comboboxes].
  destruct (exists_last Hpost) as (post' & d & ->).
  replace (pre ++ with_text v c :: post' ++ [d])
    with ((pre ++ with_text v c :: post') ++ [d])
    by (rewrite <- app_assoc; reflexivity).
  rewrite length_app. simpl List.length.
  replace (List.length (pre ++ with_text v c :: post') + 1 - 1)
    with (List.length (pre ++ with_text v c :: post')) by lia.
  rewrite nth_error_app2, Nat.sub_diag by lia. cbn [nth_error].
  assert (Hd : Nat.eqb (widget d) (widget c) = false).
  { apply Nat.eqb_neq. intros Heq. apply Hnotin. rewrite map_app, in_app_iff.
    right. simpl. now left. }
  rewrite Hd. unfold ret. rewrite <- app_assoc. reflexivity.
Qed.

(** An event on a widget that is not in the list raises at once. *)
Lemma write_dead (l : t) w v :
  ~ In w (widgets l) -> write w v l = (Exc TclError, l).
Proof.
  intros Hw. unfold write, bind, set_text.
  destruct (find (same_widget w) (comboboxes l)) as [c|] eqn:Hf; [|reflexivity].
  apply find_some in Hf as [Hin Hc]. unfold same_widget in Hc.
  apply Nat.eqb_eq in Hc. elim Hw. subst w. unfold widgets. now apply in_map.
Qed.

Lemma in_widgets_split (w : nat) (cs : list Combobox) :
  In w (map widget cs) ->
  exists pre c post, cs = pre ++ c :: post /\ widget c = w.
Proof.
  intros Hin. apply in_map_iff in Hin as (c & Hc & Hin).
  apply in_split in Hin as (pre & post & ->). now exists pre, c, post.
Qed.

Lemma wf_init : wf init.
Proof.
  unfold wf, init. cbn. repeat split.
  - constructor; [intros []|constructor].
  - repeat constructor.
Qed.

Lemma wf_remove (l : t) pre c post :
  wf l -> comboboxes l = pre ++ c :: post ->
  wf (mk (pre ++ post) (map widget (pre ++ post)) (options l) (next_widget l)).
Proof.
  intros (Hnd & _ & Hlt) Hcs. unfold wf, widgets in *. cbn [comboboxes combobox_values next_widget].
  rewrite Hcs, map_app in Hnd, Hlt. simpl in Hnd, Hlt. rewrite map_app.
  repeat split.
  - eapply NoDup_remove_1; eassumption.
  - apply Forall_app in Hlt as [H1 H2]. apply Forall_app. split; [assumption|].
    now inversion H2.
Qed.

Lemma wf_retext (l : t) pre c post v :
  wf l -> comboboxes l = pre ++ c :: post ->
  wf (mk (pre ++ with_text v c :: post) (combobox_values l) (options l) (next_widget l)).
Proof.
  intros (Hnd & Hvals & Hlt) Hcs. unfold wf, widgets in *.
  cbn [comboboxes combobox_values next_widget].
  rewrite Hcs, map_app in Hnd, Hlt, Hvals. simpl in Hnd, Hlt, Hvals.
  rewrite map_app. simpl. auto.
Qed.

Lemma wf_append (l : t) pre c v :
  wf l -> comboboxes l = pre ++ [c] ->
  wf (mk (pre ++ [with_text v c; mkCombobox (next_widget l) "" (options l)])
         (combobox_values l ++ [next_widget l]) (options l) (S (next_widget l))).
Proof.
  intros (Hnd & Hvals & Hlt) Hcs. unfold wf, widgets in *.
  cbn [comboboxes combobox_values next_widget].
  rewrite Hcs in Hnd, Hlt, Hvals.
  replace (map widget (pre ++ [with_text v c; mkCombobox (next_widget l) "" (options l)]))
    with (map widget (pre ++ [c]) ++ [next_widget l])
    by (rewrite !map_app, <- app_assoc; reflexivity).
  repeat split.
  - apply NoDup_app; [assumption|repeat constructor; intros []|].
    intros a Ha [<- | []]. rewrite Forall_forall in Hlt. specialize (Hlt _ Ha). lia.
  - now rewrite Hvals.
  - apply Forall_app. split.
    + eapply Forall_impl; [|exact Hlt]. intros a Ha. simpl in Ha. lia.
    + repeat constructor.
Qed.

(** Every event keeps the slots well formed. *)
Lemma wf_step (l : t) (e : event) : wf l -> wf (step l e).
Proof.
  intros Hwf. destruct e as [w v]. unfold step, exec.
  destruct (in_dec Nat.eq_dec w (widgets l)) as [Hin | Hout].
  2:{ now rewrite write_dead. }
  apply in_widgets_split in Hin as (pre & c & post & Hcs & <-).
  destruct (string_dec v "") as [-> | Hv].
  - destruct (pre ++ post) as [|x xs] eqn:Hpp.
    + apply app_eq_nil in Hpp as [-> ->].
      rewrite (write_last l [] c "" Hwf Hcs) by now right.
      now apply wf_append.
    + rewrite (write_remove l pre c post Hwf Hcs) by (rewrite Hpp; discriminate).
      now apply (wf_remove l pre c post).
  - destruct post as [|d post].
    + rewrite (write_last l pre c v Hwf Hcs) by now left. now apply wf_append.
    + rewrite (write_interior l pre c (d :: post) v Hwf Hcs) by (discriminate || assumption).
      now apply wf_retext.
Qed.









Lemma get_values_all (l : t) : get_values l = texts l.
Proof.
  unfold get_values, texts. f_equal.
  induction (comboboxes l) as [|c cs IH]; [reflexivity|].
  cbn [filter get ne_None]. f_equal. exact IH.
Qed.

(** C1 (the code departs from it): [get_values] is meant to return the
    non-empty texts only, but its test [combobox.get() != None] holds
    for every text, so the empty text of the last slot is returned too:
    the new list yields one empty string, and after one tag has been
    typed the result ends with an empty string. *)
Theorem get_values_keeps_empty_text :
  get_values init = [""] /\
  get_values (run [Write 0 "x"] init) = ["x"; ""].
Proof. split; reflexivity. Qed.




(** C3, as amended: for the event that writes [v] to slot [c], with
    [pre] the slots before it and [post] the slots after it.  The
    handler returns normally.  If [v] is empty and another slot exists,
    [c] and its value holder are removed, whether [c] is last or not,
    and the later slots move down by one.  If [v] is not empty and [c]
    is last, one new empty slot showing the current options is appended.
    If [v] is not empty and [c] is not last, only the text of [c]
    changes.  A slot leaves the list only in the first case, so the
    only slot of a list is never removed. *)
Theorem value_change_transition (l : t) pre c post (v : string) :
  wf l -> comboboxes l = pre ++ c :: post ->
  eval (write (widget c) v) l = Ret tt /\
  (v = "" -> pre ++ post <> [] ->
     comboboxes (step l (Write (widget c) v)) = pre ++ post /\
     combobox_values (step l (Write (widget c) v)) = map widget (pre ++ post)) /\
  (v <> "" -> post = [] ->
     comboboxes (step l (Write (widget c) v)) =
       pre ++ [with_text v c; mkCombobox (next_widget l) "" (options l)] /\
     combobox_values (step l (Write (widget c) v)) =
       combobox_values l ++ [next_widget l]) /\
  (v <> "" -> post <> [] ->
     comboboxes (step l (Write (widget c) v)) = pre ++ with_text v c :: post /\
     no_structural_change l (step l (Write (widget c) v))) /\
  (forall d, In d (widgets l) -> ~ In d (widgets (step l (Write (widget c) v))) ->
     d = widget c /\ v = "" /\ pre ++ post <> []).
Proof.
  intros Hwf Hcs. unfold step, exec, eval.
  assert (Hwid : widgets l = map widget pre ++ widget c :: map widget post).
  { unfold widgets. now rewrite Hcs, map_app. }
  destruct (string_dec v "") as [-> | Hv].
  - destruct (pre ++ post) as [|x xs] eqn:Hpp.
    + apply app_eq_nil in Hpp as [-> ->].
      rewrite (write_last l [] c "" Hwf Hcs) by now right.
      cbn [fst snd comboboxes combobox_values].
      split; [reflexivity|]. do 3 (split; [intros; congruence|]).
      intros d Hd Hnot. elim Hnot. rewrite Hwid in Hd. unfold widgets.
      simpl in *. tauto.
    + rewrite (write_remove l pre c post Hwf Hcs) by (rewrite Hpp; discriminate).
      cbn [fst snd comboboxes combobox_values]. rewrite Hpp.
      split; [reflexivity|]. split; [now intros|].
      do 2 (split; [intros; congruence|]).
      intros d Hd Hnot. rewrite Hwid in Hd. unfold widgets in Hnot.
      cbn [comboboxes] in Hnot. rewrite <- Hpp, map_app in Hnot.
      rewrite in_app_iff in Hd, Hnot. simpl in Hd.
      repeat split; [|discriminate]. intuition congruence.
  - destruct post as [|p' post].
    + rewrite (write_last l pre c v Hwf Hcs) by now left.
      cbn [fst snd comboboxes combobox_values].
      split; [reflexivity|]. split; [intros; congruence|].
      split; [now intros|]. split; [intros; congruence|].
      intros d Hd Hnot. elim Hnot. rewrite Hwid in Hd. unfold widgets.
      cbn [comboboxes]. rewrite map_app, in_app_iff in *. simpl in *. tauto.
    + rewrite (write_interior l pre c (p' :: post) v Hwf Hcs) by (discriminate || assumption).
      cbn [fst snd comboboxes combobox_values].
      assert (Hsame : map widget (pre ++ with_text v c :: p' :: post) = widgets l).
      { rewrite Hwid, map_app. reflexivity. }
      split; [reflexivity|]. do 2 (split; [intros; congruence|]).
      split; [intros _ _; split; [reflexivity|now split]|].
      intros d Hd Hnot. elim Hnot. unfold widgets at 1. cbn [comboboxes].
      now rewrite Hsame.
Qed.

Lemma value_change_transition_witness :
  wf (run [Write 0 "a"; Write 1 "b"] init) /\
  comboboxes (run [Write 0 "a"; Write 1 "b"] init) =
    [mkCombobox 0 "a" []] ++ mkCombobox 1 "b" [] :: [mkCombobox 2 "" []] /\
  comboboxes (step (run [Write 0 "a"; Write 1 "b"] init) (Write 1 "")) =
    [mkCombobox 0 "a" []] ++ [mkCombobox 2 "" []].
Proof.
  assert (Hwf : wf (run [Write 0 "a"; Write 1 "b"] init)).
  { unfold wf. cbn. repeat split.
    - repeat constructor; simpl; lia.
    - repeat constructor. }
  split; [exact Hwf|]. split; [reflexivity|].
  apply (value_change_transition (run [Write 0 "a"; Write 1 "b"] init)
           [mkCombobox 0 "a" []] (mkCombobox 1 "b" []) [mkCombobox 2 "" []] ""
           Hwf eq_refl).
  - reflexivity.
  - discriminate.
Defined.

(** C3, as stated, fails: with the slots ["a"; ""], an event on the
    last slot that leaves it empty removes that slot and its value
    holder, and with the slots ["a"; "b"] so does the event that empties
    the last slot, although the claim allows no structural change in
    either case. *)
Lemma last_slot_left_empty_is_removed :
  texts (run [Write 0 "a"] init) = ["a"; ""] /\
  widgets (run [Write 0 "a"] init) = [0; 1] /\
  widgets (step (run [Write 0 "a"] init) (Write 1 "")) = [0] /\
  ~ no_structural_change (run [Write 0 "a"] init)
      (step (run [Write 0 "a"] init) (Write 1 "")) /\
  wf two_filled_slots /\
  texts two_filled_slots = ["a"; "b"] /\
  widgets (step two_filled_slots (Write 1 "")) = [0] /\
  ~ no_structural_change two_filled_slots (step two_filled_slots (Write 1 "")).
Proof.
  split; [reflexivity|]. split; [reflexivity|]. split; [reflexivity|].
  split; [intros [H _]; discriminate H|].
  split.
  { unfold wf. cbn. repeat split.
    - repeat constructor; simpl; lia.
    - repeat constructor. }
  split; [reflexivity|]. split; [reflexivity|].
  intros [H _]. discriminate H.
Qed.

End ComboboxListFacts.

(** ** Strings *)

Lemma append_nil_r (s : string) : s +++ "" = s.
Proof. induction s as [|c s IH]; simpl; [reflexivity|now rewrite IH]. Qed.

Lemma append_assoc (a b c : string) : (a +++ b) +++ c = a +++ b +++ c.
Proof. induction a as [|x a IH]; simpl; [reflexivity|now rewrite IH]. Qed.

Lemma starts_with_app (n r : string) : starts_with n (n +++ r) = true.
Proof.
  induction n as [|c n IH]; simpl; [reflexivity|].
  now rewrite Ascii.eqb_refl, IH.
Qed.

Lemma starts_with_split (n h : string) :
  starts_with n h = true -> exists r, h = n +++ r.
Proof.
  revert h. induction n as [|c n IH]; intros h Hp; [now exists h|].
  destruct h as [|d h]; [discriminate|]. simpl in Hp.
  apply andb_prop in Hp as [Hc Hp]. apply Ascii.eqb_eq in Hc as ->.
  destruct (IH h Hp) as [r ->]. now exists r.
Qed.

Lemma contains_starts (n h : string) :
  starts_with n h = true -> contains n h = true.
Proof. intros H. destruct h; simpl; now rewrite H. Qed.

Lemma contains_intro (n p r : string) : contains n (p +++ n +++ r) = true.
Proof.
  induction p as [|c p IH].
  - cbn [String.append]. apply contains_starts, starts_with_app.
  - simpl. rewrite IH. apply orb_true_r.
Qed.

Lemma has_char_app (c : ascii) (a b : string) :
  has_char c (a +++ b) = has_char c a || has_char c b.
Proof.
  induction a as [|d a IH]; simpl; [reflexivity|]. now rewrite IH, orb_assoc.
Qed.

(** ** [re.findall] *)

Lemma match_from_lazy_close k fail (acc u : string) :
  match_from k fail acc u =
    match lazy_close u with
    | Some (m, r) => (acc +++ m) :: k r
    | None => fail
    end.
Proof.
  revert acc. induction u as [|d u IH]; intros acc; simpl; [reflexivity|].
  destruct (Ascii.eqb d ")"); [reflexivity|].
  destruct (Ascii.eqb d newline); [reflexivity|].
  rewrite IH. destruct (lazy_close u) as [[m r]|]; [|reflexivity].
  now rewrite append_assoc.
Qed.

Lemma findall_open (t : string) :
  findall_parens (String "(" t) =
    match lazy_close t with
    | Some (m, r) => String "(" m :: findall_parens r
    | None => findall_parens t
    end.
Proof.
  cbn [findall_parens]. rewrite Ascii.eqb_refl, match_from_lazy_close.
  reflexivity.
Qed.

Lemma findall_other (c : ascii) (t : string) :
  Ascii.eqb c "(" = false -> findall_parens (String c t) = findall_parens t.
Proof. intros H. cbn [findall_parens]. now rewrite H. Qed.

Lemma findall_skip (p s : string) :
  has_char "(" p = false -> findall_parens (p +++ s) = findall_parens s.
Proof.
  induction p as [|c p IH]; simpl; [reflexivity|]. intros H.
  apply orb_false_iff in H as [Hc Hp]. rewrite Hc. now apply IH.
Qed.

Lemma findall_none (s : string) :
  has_char "(" s = false -> findall_parens s = [].
Proof.
  intros H. rewrite <- (append_nil_r s). now rewrite findall_skip.
Qed.


Lemma lazy_close_shorter (x m r : string) :
  lazy_close x = Some (m, r) -> String.length r < String.length x.
Proof.
  revert m. induction x as [|d x IH]; intros m; simpl; [discriminate|].
  destruct (Ascii.eqb d ")"); [intros [= <- <-]; lia|].
  destruct (Ascii.eqb d newline); [discriminate|].
  destruct (lazy_close x) as [[m' r']|]; [|discriminate].
  intros [= <- <-]. specialize (IH m' eq_refl). lia.
Qed.


Lemma lazy_close_exact (a y : string) :
  has_char ")" a = false -> has_char newline a = false ->
  lazy_close (a +++ String ")" y) = Some (a +++ ")", y).
Proof.
  induction a as [|d a IH]; simpl; [reflexivity|]. intros H1 H2.
  apply orb_false_iff in H1 as [Hd1 Ha1]. apply orb_false_iff in H2 as [Hd2 Ha2].
  now rewrite Hd1, Hd2, IH.
Qed.





(** One parenthesised run and no other parenthesis give that run as the
    only match. *)
Lemma findall_one_group (p a r : string) :
  has_char "(" p = false -> has_char ")" a = false ->
  has_char newline a = false -> has_char "(" r = false ->
  findall_parens (p +++ String "(" (a +++ String ")" r)) = [String "(" (a +++ ")")].
Proof.
  intros Hp Ha1 Ha2 Hr. rewrite findall_skip by assumption.
  rewrite findall_open, lazy_close_exact by assumption.
  now rewrite findall_none.
Qed.

(** ** [str] on [bytes] *)

Lemma repr_quote_cases (b : bytes) : repr_quote b = squote \/ repr_quote b = dquote.
Proof. unfold repr_quote. destruct (_ && _); [now right|now left]. Qed.

Lemma repr_bytes_app (q : ascii) (a b : bytes) :
  repr_bytes q (a ++ b) = repr_bytes q a +++ repr_bytes q b.
Proof.
  induction a as [|x a IH]; simpl; [reflexivity|].
  now rewrite IH, append_assoc.
Qed.

(** A byte is written as itself, or as an escape that a backslash
    opens; an escape holds no newline and no capital N after the
    backslash. *)
Lemma repr_byte_shape (q : ascii) (b : byte) :
  q = squote \/ q = dquote ->
  exists c rest,
    repr_byte q b = String c rest /\
    has_char "N" rest = false /\
    has_char newline (String c rest) = false /\
    (c = backslash \/ (c = ascii_of_byte b /\ rest = "")).
Proof.
  intros [-> | ->]; destruct b;
    (eexists _, _; split; [reflexivity|]; split; [reflexivity|];
     split; [reflexivity|]; first [left; reflexivity | right; split; reflexivity]).
Qed.

Lemma repr_bytes_no_newline (q : ascii) (b : bytes) :
  q = squote \/ q = dquote -> has_char newline (repr_bytes q b) = false.
Proof.
  intros Hq. induction b as [|x b IH]; [reflexivity|]. cbn [repr_bytes].
  destruct (repr_byte_shape q x Hq) as (c & rest & -> & _ & Hnl & _).
  now rewrite has_char_app, Hnl, IH.
Qed.

(** Line ends are escaped: the text the source searches holds no
    newline. *)
Lemma str_bytes_no_newline (b : bytes) : has_char newline (str_bytes b) = false.
Proof.
  unfold str_bytes. pose proof (repr_quote_cases b) as Hq.
  cbn [has_char]. rewrite has_char_app, repr_bytes_no_newline by assumption.
  destruct Hq as [-> | ->]; reflexivity.
Qed.

(** A text of characters that are written as themselves starts the
    written form of [bs] only if its bytes start [bs]. *)
Lemma starts_with_repr (q : ascii) (m : string) (bs : bytes) :
  q = squote \/ q = dquote ->
  has_char backslash m = false -> has_char q m = false ->
  starts_with m (repr_bytes q bs +++ String q "") = true ->
  exists s, bs = list_byte_of_string m ++ s.
Proof.
  intros Hq. revert bs. induction m as [|c m IH]; intros bs Hb Hm Hs.
  - now exists bs.
  - cbn [has_char] in Hb, Hm.
    apply orb_false_iff in Hb as [Hcb Hb]. apply orb_false_iff in Hm as [Hcq Hm].
    destruct bs as [|b bs].
    + cbn in Hs. apply andb_prop in Hs as [Hs _]. congruence.
    + cbn [repr_bytes] in Hs. rewrite append_assoc in Hs.
      destruct (repr_byte_shape q b Hq) as (c' & rest & E & _ & _ & Hc').
      rewrite E in Hs. cbn [String.append starts_with] in Hs.
      apply andb_prop in Hs as [Heq Hs]. apply Ascii.eqb_eq in Heq as <-.
      destruct Hc' as [-> | [-> ->]].
      * rewrite Ascii.eqb_refl in Hcb. discriminate.
      * cbn [String.append] in Hs. destruct (IH bs Hb Hm Hs) as [s ->].
        exists s. unfold list_byte_of_string. cbn [list_ascii_of_string map].
        now rewrite byte_of_ascii_of_byte.
Qed.

Lemma contains_skip (m rest tail : string) :
  has_char "N" rest = false ->
  contains (String "N" m) (rest +++ tail) = contains (String "N" m) tail.
Proof.
  induction rest as [|d rest IH]; intros H; [reflexivity|].
  cbn [has_char] in H. apply orb_false_iff in H as [Hd H].
  cbn [String.append contains starts_with].
  rewrite Ascii.eqb_sym, Hd. cbn [andb orb]. now apply IH.
Qed.

(** A text that opens with a capital N and is written as itself occurs
    in the written form of [bs] only where its bytes occur in [bs]. *)
Lemma contains_repr (q : ascii) (m : string) (bs : bytes) :
  q = squote \/ q = dquote ->
  has_char backslash m = false -> has_char q m = false ->
  contains (String "N" m) (repr_bytes q bs +++ String q "") = true ->
  exists p s, bs = p ++ list_byte_of_string (String "N" m) ++ s.
Proof.
  intros Hq Hb Hm. induction bs as [|b bs IH]; intros H.
  - exfalso. destruct Hq as [-> | ->]; cbn in H; discriminate.
  - assert (Hstart : forall x,
              starts_with (String "N" m) (repr_bytes q x +++ String q "") = true ->
              exists s, x = list_byte_of_string (String "N" m) ++ s).
    { intros x Hx. apply (starts_with_repr q); try assumption.
      cbn [has_char]. rewrite Hm. destruct Hq as [-> | ->]; reflexivity. }
    destruct (starts_with (String "N" m) (repr_bytes q (b :: bs) +++ String q "")) eqn:Hs.
    + destruct (Hstart _ Hs) as [s ->]. now exists [], s.
    + cbn [repr_bytes] in H, Hs. rewrite append_assoc in H, Hs.
      destruct (repr_byte_shape q b Hq) as (c' & rest & E & HN & _ & _).
      rewrite E in H, Hs. cbn [String.append] in H, Hs.
      cbn [contains] in H. rewrite Hs in H. cbn [orb] in H.
      rewrite contains_skip in H by assumption.
      destruct (IH H) as (p & s & ->). now exists (b :: p), s.
Qed.

(** The marker is in the text the source searches exactly when it is in
    the bytes [watson status] printed. *)
Lemma marker_in_str_bytes (out : bytes) :
  contains no_project_marker (str_bytes out) = true <-> has_marker out.
Proof.
  pose proof (repr_quote_cases out) as Hq. unfold str_bytes, has_marker. split.
  - intros H. cbn [contains starts_with no_project_marker] in H.
    replace (Ascii.eqb "N" "b") with false in H by reflexivity.
    replace (Ascii.eqb "N" (repr_quote out)) with false in H
      by (destruct Hq as [-> | ->]; reflexivity).
    cbn [andb orb] in H.
    apply (contains_repr (repr_quote out)) in H; try assumption.
    + reflexivity.
    + destruct Hq as [-> | ->]; reflexivity.
  - intros (p & s & E). remember (repr_quote out) as q eqn:Eq. clear Eq.
    rewrite E, !repr_bytes_app.
    replace (repr_bytes q (list_byte_of_string no_project_marker))
      with no_project_marker by (destruct Hq as [-> | ->]; reflexivity).
    rewrite !append_assoc.
    apply (contains_intro no_project_marker (String "b" (String q (repr_bytes q p)))).
Qed.

(** ** The parser of [watson status] *)

Example str_bytes_status :
  str_bytes (fst (sim_watson true "watson status" true)) =
    String "b" (String squote
      ("Project Alpha [x, y] started just now (2023.01.01 10:00:00+0100)"
       +++ String backslash ("r" +++ String backslash ("n" +++ String squote "")))).
Proof. reflexivity. Qed.

Example findall_status :
  findall_parens (str_bytes (fst (sim_watson true "watson status" true))) =
    ["(2023.01.01 10:00:00+0100)"].
Proof. reflexivity. Qed.

Example strptime_fixed_status :
  strptime_fixed "(2023.01.01 10:00:00+0100)" status_time_format =
    Some (mkdatetime 2023 1 1 10 0 0 0 (Some (mktimedelta 0 3600 0))).
Proof. reflexivity. Qed.

Example strptime_fixed_rejects : strptime_fixed "(bar)" status_time_format = None.
Proof. reflexivity. Qed.

Example splitlines_projects :
  splitlines (fst (sim_watson true "watson projects" false)) =
    [list_byte_of_string "Alpha"; list_byte_of_string "Beta"].
Proof. reflexivity. Qed.

Section StatusFacts.

Variable strptime : string -> string -> option datetime.

Lemma no_marker_false (out : bytes) :
  ~ has_marker out -> contains no_project_marker (str_bytes out) = false.
Proof.
  intros H. apply not_true_is_false. intros Hc. apply H.
  now apply marker_in_str_bytes.
Qed.

(** Without the marker, the outcome follows the number of matches. *)
Lemma start_time_of_status_matches (out : bytes) :
  ~ has_marker out ->
  start_time_of_status strptime out =
    match findall_parens (str_bytes out) with
    | [m] =>
      match strptime m status_time_format with
      | Some dt => Ret (Some (replace_tzinfo_None dt))
      | None => Exc ValueError
      end
    | _ => Exc ProtocolError
    end.
Proof.
  intros H. unfold start_time_of_status. rewrite (no_marker_false out H).
  destruct (findall_parens (str_bytes out)) as [|m [|m' ms]]; reflexivity.
Qed.


Lemma repr_byte_no_open (q : ascii) (b : byte) :
  q = squote \/ q = dquote -> b <> x28 -> has_char "(" (repr_byte q b) = false.
Proof. intros [-> | ->] Hb; destruct b; try reflexivity; congruence. Qed.

Lemma repr_byte_no_close (q : ascii) (b : byte) :
  q = squote \/ q = dquote -> b <> x29 -> has_char ")" (repr_byte q b) = false.
Proof. intros [-> | ->] Hb; destruct b; try reflexivity; congruence. Qed.

Lemma repr_bytes_no_open (q : ascii) (bs : bytes) :
  q = squote \/ q = dquote -> ~ In x28 bs -> has_char "(" (repr_bytes q bs) = false.
Proof.
  intros Hq. induction bs as [|b bs IH]; [reflexivity|]. cbn [repr_bytes In].
  intros Hin. rewrite has_char_app, repr_byte_no_open, IH; tauto || reflexivity.
Qed.

Lemma repr_bytes_no_close (q : ascii) (bs : bytes) :
  q = squote \/ q = dquote -> ~ In x29 bs -> has_char ")" (repr_bytes q bs) = false.
Proof.
  intros Hq. induction bs as [|b bs IH]; [reflexivity|]. cbn [repr_bytes In].
  intros Hin. rewrite has_char_app, repr_byte_no_close, IH; tauto || reflexivity.
Qed.

(** Output with one parenthesised run and no other parenthesis: the
    run, as [str] writes it, is the only match, and the result is what
    [strptime] makes of it. *)
Lemma status_single_group (p a r : bytes) :
  ~ has_marker (p ++ [x28] ++ a ++ [x29] ++ r) ->
  ~ In x28 p -> ~ In x29 a -> ~ In x28 r ->
  start_time_of_status strptime (p ++ [x28] ++ a ++ [x29] ++ r) =
    match strptime
            (String "(" (repr_bytes (repr_quote (p ++ [x28] ++ a ++ [x29] ++ r)) a +++ ")"))
            status_time_format with
    | Some dt => Ret (Some (replace_tzinfo_None dt))
    | None => Exc ValueError
    end.
Proof.
  intros Hm Hp Ha Hr. rewrite (start_time_of_status_matches _ Hm).
  set (out := p ++ [x28] ++ a ++ [x29] ++ r).
  pose proof (repr_quote_cases out) as Hq.
  assert (E : findall_parens (str_bytes out) =
              [String "(" (repr_bytes (repr_quote out) a +++ ")")]).
  { unfold str_bytes. remember (repr_quote out) as Q eqn:EQ. clear EQ.
    unfold out. rewrite !repr_bytes_app.
    replace (repr_bytes Q [x28]) with "(" by (destruct Hq as [-> | ->]; reflexivity).
    replace (repr_bytes Q [x29]) with ")" by (destruct Hq as [-> | ->]; reflexivity).
    rewrite !append_assoc. cbn [String.append].
    apply (findall_one_group (String "b" (String Q (repr_bytes Q p)))
             (repr_bytes Q a) (repr_bytes Q r +++ String Q "")).
    - cbn [has_char]. rewrite repr_bytes_no_open by assumption.
      destruct Hq as [-> | ->]; reflexivity.
    - now apply repr_bytes_no_close.
    - now apply repr_bytes_no_newline.
    - rewrite has_char_app, repr_bytes_no_open by assumption.
      destruct Hq as [-> | ->]; reflexivity. }
  rewrite E. reflexivity.
Qed.

(** C4, as amended: when the output of [watson status] holds the marker
    the result is [None], whatever else it holds.  When it does not,
    the source's exception is raised exactly when the number of
    parenthesised runs, the matches of the pattern of line 52 whatever
    they hold, is not one; and when there is one match and [strptime]
    accepts it, the result is the parsed time with its fields unchanged
    and its offset dropped. *)
Theorem status_parsing (out : bytes) :
  (has_marker out -> start_time_of_status strptime out = Ret None) /\
  (~ has_marker out ->
   (start_time_of_status strptime out = Exc ProtocolError <->
    List.length (findall_parens (str_bytes out)) <> 1)) /\
  (~ has_marker out ->
   forall m dt,
     findall_parens (str_bytes out) = [m] ->
     strptime m status_time_format = Some dt ->
     exists st,
       start_time_of_status strptime out = Ret (Some st) /\
       tzinfo st = None /\
       (year st, month st, day st) = (year dt, month dt, day dt) /\
       (hour st, minute st, second st, microsecond st) =
         (hour dt, minute dt, second dt, microsecond dt)).
Proof.
  split; [|split].
  - intros H. apply marker_in_str_bytes in H. unfold start_time_of_status.
    now rewrite H.
  - intros H. rewrite (start_time_of_status_matches out H).
    destruct (findall_parens (str_bytes out)) as [|m [|m' ms]]; simpl.
    + split; [intros _; lia | reflexivity].
    + split; [|intros Hn; now elim Hn].
      destruct (strptime m status_time_format); discriminate.
    + split; [intros _; lia | reflexivity].
  - intros H m dt Hm Hdt. rewrite (start_time_of_status_matches out H), Hm, Hdt.
    exists (replace_tzinfo_None dt). repeat split.
Qed.


End StatusFacts.

Lemma no_marker_by_search (out : bytes) :
  contains no_project_marker (str_bytes out) = false -> ~ has_marker out.
Proof.
  intros Hc Hm. apply marker_in_str_bytes in Hm. congruence.
Qed.

Lemma status_parsing_witness :
  has_marker status_idle /\
  start_time_of_status strptime_fixed status_idle = Ret None /\
  ~ has_marker status_running /\
  (start_time_of_status strptime_fixed status_running = Exc ProtocolError <->
   List.length (findall_parens (str_bytes status_running)) <> 1) /\
  exists st,
    start_time_of_status strptime_fixed status_running = Ret (Some st) /\
    tzinfo st = None /\
    (year st, month st, day st) = (2023, 1, 1)%Z /\
    (hour st, minute st, second st, microsecond st) = (10, 0, 0, 0)%Z.
Proof.
  assert (Hidle : has_marker status_idle).
  { exists [], [x2e; x0d; x0a]. reflexivity. }
  assert (Hrun : ~ has_marker status_running).
  { apply no_marker_by_search. reflexivity. }
  split; [exact Hidle|]. split.
  - exact (proj1 (status_parsing strptime_fixed status_idle) Hidle).
  - split; [exact Hrun|]. split.
    + exact (proj1 (proj2 (status_parsing strptime_fixed status_running)) Hrun).
    + exact (proj2 (proj2 (status_parsing strptime_fixed status_running)) Hrun
               "(2023.01.01 10:00:00+0100)"
               (mkdatetime 2023 1 1 10 0 0 0 (Some (mktimedelta 0 3600 0)))
               eq_refl eq_refl).
Defined.

(** C4, as stated, fails: an output with one timestamp and another
    parenthesised word raises the source's exception although it holds
    exactly one timestamp, and an output whose only parenthesised word
    is no timestamp raises [ValueError] instead of it. *)
Lemma one_timestamp_yet_protocol_error :
  ~ has_marker status_two_groups /\
  timestamp_occurrences (str_bytes status_two_groups) = 1 /\
  start_time_of_status strptime_fixed status_two_groups = Exc ProtocolError /\
  ~ has_marker status_not_a_time /\
  timestamp_occurrences (str_bytes status_not_a_time) = 0 /\
  start_time_of_status strptime_fixed status_not_a_time <> Exc ProtocolError.
Proof.
  split; [apply no_marker_by_search; reflexivity|].
  split; [reflexivity|]. split; [reflexivity|].
  split; [apply no_marker_by_search; reflexivity|].
  split; [reflexivity|]. vm_compute. discriminate.
Qed.


(** ** TimerLabelUpdater *)

Module TimerLabelUpdaterFacts.
Import TimerLabelUpdater.

Local Open Scope Z_scope.

Lemma timedelta_new_whole (d s : Z) :
  timedelta_new d s 0 = timedelta_new 0 (d * 86400 + s) 0.
Proof.
  unfold timedelta_new. change (0 / 1000000) with 0. rewrite !Z.add_0_r.
  f_equal.
  - rewrite (Z.add_comm (d * 86400) s), Z.div_add by lia. lia.
  - rewrite (Z.add_comm (d * 86400) s), Z.mod_add by lia. reflexivity.
Qed.

Lemma timedelta_str_whole (n : Z) :
  timedelta_str (timedelta_new 0 n 0) =
    days_prefix (n / 86400) +++ hours_minutes_seconds (n mod 86400).
Proof.
  unfold timedelta_new, timedelta_str, days_prefix, hours_minutes_seconds.
  cbn [days seconds microseconds].
  change (0 / 1000000) with 0. change (0 mod 1000000) with 0.
  rewrite Z.add_0_r, Z.add_0_l. cbn [Z.eqb].
  rewrite Z.div_div by lia. change (60 * 60) with 3600.
  destruct (n / 86400 =? 0); [reflexivity|].
  now rewrite !append_assoc.
Qed.

Lemma datetime_sub_naive (a b : datetime) :
  tzinfo a = None -> tzinfo b = None -> microsecond a = microsecond b ->
  datetime_sub a b = Ret (timedelta_new 0 (wall_seconds a - wall_seconds b) 0).
Proof.
  intros Ha Hb Hus. unfold datetime_sub. rewrite Ha, Hb, Hus, Z.sub_diag.
  cbn [option_timedelta_eqb]. rewrite timedelta_new_whole. do 2 f_equal.
  unfold wall_seconds. ring.
Qed.

(** C6, as amended: a tick writes ["0:00:00"] when there is no start
    time.  With a start time, for the [n] whole seconds between the
    start and the clock reading cut to the second, it writes
    hours:minutes:seconds of the seconds within the day, so with hours
    below 24, after the count of days when that count is not zero.
    Under a day this is the hours:minutes:seconds form of [n], and for
    [n = 125] it is ["0:02:05"]. *)
Theorem tick_renders (now : datetime) (u : t) :
  (start_time u = None ->
   label_text (exec (_update_label now) u) = "0:00:00") /\
  (forall st n,
     start_time u = Some st ->
     tzinfo now = None -> tzinfo st = None -> microsecond st = 0 ->
     n = wall_seconds now - wall_seconds st ->
     label_text (exec (_update_label now) u) =
       days_prefix (n / 86400) +++ hours_minutes_seconds (n mod 86400) /\
     0 <= n mod 86400 / 3600 < 24 /\
     (0 <= n < 86400 ->
      label_text (exec (_update_label now) u) = hours_minutes_seconds n) /\
     (n = 125 -> label_text (exec (_update_label now) u) = "0:02:05")).
Proof.
  split.
  - intros Hu. unfold exec, _update_label. rewrite Hu. reflexivity.
  - intros st n Hu Hnow Hst Hus Hn.
    assert (E : label_text (exec (_update_label now) u) =
                days_prefix (n / 86400) +++ hours_minutes_seconds (n mod 86400)).
    { unfold exec, _update_label. rewrite Hu.
      rewrite (datetime_sub_naive (replace_microsecond_0 now) st)
        by (cbn [replace_microsecond_0 tzinfo microsecond]; congruence).
      cbn [snd label_text]. rewrite timedelta_str_whole. now subst n. }
    split; [exact E|]. split; [|split].
    + pose proof (Z.mod_pos_bound n 86400 eq_refl) as Hb.
      split; [apply Z.div_pos; lia|apply Z.div_lt_upper_bound; lia].
    + intros Hday. rewrite E, Z.div_small, Z.mod_small by lia. reflexivity.
    + intros ->. rewrite E. reflexivity.
Qed.

Lemma tick_renders_witness :
  start_time (mk "" (Some at_10_00_00)) = Some at_10_00_00 /\
  wall_seconds at_10_02_05 - wall_seconds at_10_00_00 = 125 /\
  label_text (exec (_update_label at_10_02_05) (mk "" (Some at_10_00_00))) = "0:02:05".
Proof.
  split; [reflexivity|]. split; [reflexivity|].
  apply (proj2 (tick_renders at_10_02_05 (mk "" (Some at_10_00_00)))
           at_10_00_00 125 eq_refl eq_refl eq_refl eq_refl eq_refl).
  reflexivity.
Defined.

(** C6, as stated, fails: a day after the start the label reads
    ["1 day, 0:00:00"], not the ["24:00:00"] of unbounded hours. *)
Lemma tick_counts_days :
  wall_seconds next_day_10_00_00 - wall_seconds at_10_00_00 = 86400 /\
  label_text (exec (_update_label next_day_10_00_00) (mk "" (Some at_10_00_00))) =
    "1 day, 0:00:00" /\
  hours_minutes_seconds 86400 = "24:00:00" /\
  label_text (exec (_update_label next_day_10_00_00) (mk "" (Some at_10_00_00))) <>
    hours_minutes_seconds
      (wall_seconds next_day_10_00_00 - wall_seconds at_10_00_00).
Proof.
  repeat split; try reflexivity. vm_compute. discriminate.
Qed.

End TimerLabelUpdaterFacts.

(** ** The window and its handlers *)

Lemma last_char_app (a b : string) :
  b <> "" -> last_char (a +++ b) = last_char b.
Proof.
  intros Hb. induction a as [|c a IH]; [reflexivity|].
  cbn [String.append last_char]. rewrite IH.
  destruct (a +++ b) eqn:E; [|reflexivity].
  destruct a; [simpl in E; congruence|discriminate].
Qed.

Lemma words_from_sep (cur a b : string) :
  words_from cur (a +++ String " " b) = words_from cur a ++ words_from "" b.
Proof.
  revert cur. induction a as [|c a IH]; intros cur; [reflexivity|].
  cbn [String.append words_from].
  destruct (Ascii.eqb c " "); [now rewrite IH|apply IH].
Qed.

Lemma carries_sep (a b : string) :
  carries_no_gap (a +++ String " " b) = carries_no_gap a || carries_no_gap b.
Proof.
  unfold carries_no_gap, words. now rewrite words_from_sep, existsb_app.
Qed.

Lemma carries_concat (l : list string) :
  carries_no_gap (String.concat " " l) = existsb carries_no_gap l.
Proof.
  induction l as [|x l IH]; [reflexivity|].
  destruct l as [|y l].
  - cbn [String.concat existsb]. now rewrite orb_false_r.
  - change (String.concat " " (x :: y :: l))
      with (x +++ String " " (String.concat " " (y :: l))).
    now rewrite carries_sep, IH.
Qed.

Lemma existsb_plus (tags : list string) :
  existsb carries_no_gap (map (fun tag => "+" +++ tag) tags) =
  existsb (fun tag => carries_no_gap ("+" +++ tag)) tags.
Proof.
  induction tags as [|t tags IH]; [reflexivity|]. cbn [map existsb].
  now rewrite IH.
Qed.

(** The words of the start command: the flag is among them when it is
    chosen, or when the project or a tag brings it. *)
Lemma start_frame_command_carries (project : string) (tags : list string)
    (c : StartAt) :
  carries_no_gap (start_frame_command project tags (current c)) =
    carries_no_gap project ||
    existsb (fun tag => carries_no_gap ("+" +++ tag)) tags ||
    match c with Now => false | LastStopTime => true end.
Proof.
  change (start_frame_command project tags (current c))
    with ("watson start" +++ String " " (project +++ String " "
            (String.concat " " (map (fun tag => "+" +++ tag) tags) +++
             String " " (no_gap_str (current c))))).
  rewrite !carries_sep, carries_concat, existsb_plus.
  change (carries_no_gap "watson start") with false. cbn [orb].
  rewrite orb_assoc. f_equal. now destruct c.
Qed.

(** Runs the primitive steps of the handlers on a window given by its
    fields; the projections are reduced as soon as they appear. *)
Ltac app_steps :=
  cbv [on_start_commanded on_stop_commanded startup show_log show_csv
       start_frame stop_frame get_projects get_tags get_current_start_time
       execute_command run_command show_message_dialog
       set_start_time set_button_enabled set_project_values set_tag_options
       on_time_label_updater on_tags_list start_command_of
       ComboboxList.set_options
       TimerLabelUpdater.set_start_time TimerLabelUpdater.init
       TimerLabelUpdater.label_text TimerLabelUpdater.start_time
       emit modify bind gets ret exec eval fst snd
       watson log project_combo_text project_combo_values tags_list
       start_at_combo time_label_updater start_button_enabled
       stop_button_enabled].

Section AppFacts.

Variable strptime : string -> string -> option datetime.
Context {tracker : Type}.
Variable subprocess_run : string -> tracker -> bytes * tracker.

(** What [on_start_commanded] does when the project is not empty: the
    start operation, the status query, and, if the answer parses, the
    three updates. *)
Lemma on_start_commanded_run (a : App tracker) :
  project_combo_text a <> "" ->
  let w1 := snd (subprocess_run (start_command_of a) (watson a)) in
  let out := fst (subprocess_run "watson status" w1) in
  let w2 := snd (subprocess_run "watson status" w1) in
  on_start_commanded strptime subprocess_run a =
    match start_time_of_status strptime out with
    | Ret st =>
      (Ret tt,
       mkApp w2
         (log a ++ [Run (start_command_of a); Run "watson status";
                    SetStartTime st; SetButtonEnabled StartButton false;
                    SetButtonEnabled StopButton true])
         (project_combo_text a) (project_combo_values a) (tags_list a)
         (start_at_combo a)
         (TimerLabelUpdater.mk (TimerLabelUpdater.label_text (time_label_updater a)) st)
         false true)
    | Exc e =>
      (Exc e,
       mkApp w2 (log a ++ [Run (start_command_of a); Run "watson status"])
         (project_combo_text a) (project_combo_values a) (tags_list a)
         (start_at_combo a) (time_label_updater a)
         (start_button_enabled a) (stop_button_enabled a))
    end.
Proof.
  intros Hp. destruct a as [w l p v t s u b1 b2].
  cbn [project_combo_text] in Hp. apply String.eqb_neq in Hp.
  app_steps. rewrite Hp.
  destruct (subprocess_run _ w) as [o1 w1]. app_steps.
  destruct (subprocess_run "watson status" w1) as [out w2]. app_steps.
  destruct (start_time_of_status strptime out) as [st|e]; app_steps;
    rewrite <- ?app_assoc; reflexivity.
Qed.

(** What [on_stop_commanded] does. *)
Lemma on_stop_commanded_run (a : App tracker) :
  let w1 := snd (subprocess_run "watson stop" (watson a)) in
  let projects := splitlines (fst (subprocess_run "watson projects" w1)) in
  let w2 := snd (subprocess_run "watson projects" w1) in
  let tags := splitlines (fst (subprocess_run "watson tags" w2)) in
  let w3 := snd (subprocess_run "watson tags" w2) in
  on_stop_commanded subprocess_run a =
    (Ret tt,
     mkApp w3
       (log a ++ [Run "watson stop";
                  Run "watson projects"; SetProjectValues projects;
                  Run "watson tags"; SetTagOptions tags;
                  SetStartTime None;
                  SetButtonEnabled StartButton true;
                  SetButtonEnabled StopButton false])
       (project_combo_text a) projects
       (exec (ComboboxList.set_options tags) (tags_list a))
       (start_at_combo a)
       (TimerLabelUpdater.mk (TimerLabelUpdater.label_text (time_label_updater a)) None)
       true false).
Proof.
  destruct a as [w l p v t s u b1 b2]. app_steps.
  destruct (subprocess_run "watson stop" w) as [o1 w1]. app_steps.
  destruct (subprocess_run "watson projects" w1) as [o2 w2]. app_steps.
  destruct (subprocess_run "watson tags" w2) as [o3 w3]. app_steps.
  rewrite <- ?app_assoc. reflexivity.
Qed.

Lemma empty_project_alert (a : App tracker) :
  project_combo_text a = "" ->
  on_start_commanded strptime subprocess_run a =
    (Ret tt,
     mkApp (watson a) (log a ++ [ShowError "Project name cannot be empty"])
       (project_combo_text a) (project_combo_values a) (tags_list a)
       (start_at_combo a) (time_label_updater a)
       (start_button_enabled a) (stop_button_enabled a)).
Proof.
  destruct a as [w l p v t s u b1 b2]. cbn [project_combo_text].
  intros ->. reflexivity.
Qed.

(** C5: with an empty project, [on_start_commanded] shows one alert and
    returns; no command is run, and the tool, the buttons, the timer and
    every other widget are as they were. *)
Theorem start_with_empty_project (a : App tracker) :
  project_combo_text a = "" ->
  on_start_commanded strptime subprocess_run a =
    (Ret tt,
     mkApp (watson a) (log a ++ [ShowError "Project name cannot be empty"])
       (project_combo_text a) (project_combo_values a) (tags_list a)
       (start_at_combo a) (time_label_updater a)
       (start_button_enabled a) (stop_button_enabled a)).
Proof. exact (empty_project_alert a). Qed.

Lemma start_frame_command_flag (project : string) (tags : list string) (c : StartAt) :
  start_frame_command project tags (current c) =
    (("watson start " +++ project +++ " " +++
      String.concat " " (map (fun tag => "+" +++ tag) tags)) +++ " ") +++
    match c with Now => "" | LastStopTime => "--no-gap" end.
Proof.
  unfold start_frame_command. rewrite !append_assoc.
  destruct c; reflexivity.
Qed.

(** C7, as amended: with a project, the first thing
    [on_start_commanded] does is run the start command, whose last
    argument is [--no-gap] exactly when "Last stop time" is chosen; with
    "Now" the place of the flag is empty.  The project and the tags
    stand on the command line as they were typed, so [--no-gap] is one
    of its words exactly when "Last stop time" is chosen or a word of
    the project or of a tag, written after its [+], is [--no-gap]. *)
Theorem start_carries_no_gap (a : App tracker) :
  project_combo_text a <> "" ->
  (exists rest,
     log (exec (on_start_commanded strptime subprocess_run) a) =
       log a ++ Run (start_command_of a) :: rest) /\
  start_command_of a =
    (("watson start " +++ project_combo_text a +++ " " +++
      String.concat " "
        (map (fun tag => "+" +++ tag) (ComboboxList.get_values (tags_list a))))
     +++ " ") +++
    match start_at_combo a with Now => "" | LastStopTime => "--no-gap" end /\
  (ends_with "--no-gap" (start_command_of a) <-> start_at_combo a = LastStopTime) /\
  (start_at_combo a = Now -> ends_with " " (start_command_of a)) /\
  carries_no_gap (start_command_of a) =
    carries_no_gap (project_combo_text a) ||
    existsb (fun tag => carries_no_gap ("+" +++ tag))
            (ComboboxList.get_values (tags_list a)) ||
    match start_at_combo a with Now => false | LastStopTime => true end.
Proof.
  intros Hp. split; [|split; [|split; [|split]]].
  - unfold exec. rewrite (on_start_commanded_run a Hp). cbv zeta.
    destruct (start_time_of_status _ _); cbn [snd log]; eexists; reflexivity.
  - apply start_frame_command_flag.
  - unfold start_command_of. rewrite start_frame_command_flag.
    remember ("watson start " +++ _) as pre eqn:Epre. clear Epre.
    destruct (start_at_combo a); split.
    + intros [p Hend]. apply (f_equal last_char) in Hend.
      rewrite append_nil_r, (last_char_app pre), (last_char_app p) in Hend
        by discriminate.
      discriminate Hend.
    + discriminate.
    + reflexivity.
    + intros _. exists (pre +++ " "). reflexivity.
  - intros Hnow. unfold start_command_of. rewrite start_frame_command_flag, Hnow.
    rewrite append_nil_r. eexists. reflexivity.
  - apply start_frame_command_carries.
Qed.

(** C8: [on_stop_commanded] runs the stop command, then asks for the
    projects and puts them in the project selector, then asks for the
    tags and makes them the options of the tag list and of every tag
    slot, whose widgets and texts stay, then clears the start time of
    the timer, then enables Start and disables Stop, in that order. *)
Theorem stop_sequence (a : App tracker) :
  on_stop_commanded subprocess_run a =
    (Ret tt,
     mkApp (snd (subprocess_run "watson tags"
              (snd (subprocess_run "watson projects"
                 (snd (subprocess_run "watson stop" (watson a)))))))
       (log a ++
        [Run "watson stop";
         Run "watson projects";
         SetProjectValues
           (splitlines (fst (subprocess_run "watson projects"
              (snd (subprocess_run "watson stop" (watson a))))));
         Run "watson tags";
         SetTagOptions
           (splitlines (fst (subprocess_run "watson tags"
              (snd (subprocess_run "watson projects"
                 (snd (subprocess_run "watson stop" (watson a))))))));
         SetStartTime None;
         SetButtonEnabled StartButton true;
         SetButtonEnabled StopButton false])
       (project_combo_text a)
       (splitlines (fst (subprocess_run "watson projects"
          (snd (subprocess_run "watson stop" (watson a))))))
       (ComboboxList.mk
          (map (fun c =>
                  ComboboxList.mkCombobox (ComboboxList.widget c)
                    (ComboboxList.text c)
                    (splitlines (fst (subprocess_run "watson tags"
                       (snd (subprocess_run "watson projects"
                          (snd (subprocess_run "watson stop" (watson a)))))))))
               (ComboboxList.comboboxes (tags_list a)))
          (ComboboxList.combobox_values (tags_list a))
          (splitlines (fst (subprocess_run "watson tags"
             (snd (subprocess_run "watson projects"
                (snd (subprocess_run "watson stop" (watson a))))))))
          (ComboboxList.next_widget (tags_list a)))
       (start_at_combo a)
       (TimerLabelUpdater.mk
          (TimerLabelUpdater.label_text (time_label_updater a)) None)
       true false) /\
  ComboboxList.options (tags_list (exec (on_stop_commanded subprocess_run) a)) =
    splitlines (fst (subprocess_run "watson tags"
      (snd (subprocess_run "watson projects"
         (snd (subprocess_run "watson stop" (watson a))))))) /\
  Forall (fun c =>
            ComboboxList.values c =
              splitlines (fst (subprocess_run "watson tags"
                (snd (subprocess_run "watson projects"
                   (snd (subprocess_run "watson stop" (watson a))))))))
         (ComboboxList.comboboxes
            (tags_list (exec (on_stop_commanded subprocess_run) a))) /\
  ComboboxList.widgets (tags_list (exec (on_stop_commanded subprocess_run) a)) =
    ComboboxList.widgets (tags_list a) /\
  ComboboxList.texts (tags_list (exec (on_stop_commanded subprocess_run) a)) =
    ComboboxList.texts (tags_list a).
Proof.
  unfold exec. rewrite (on_stop_commanded_run a). cbv zeta.
  cbn [snd tags_list]. unfold exec, ComboboxList.set_options, modify.
  cbn [snd ComboboxList.options ComboboxList.comboboxes].
  split; [reflexivity|]. split; [reflexivity|]. split; [|split].
  - apply Forall_forall. intros c Hc.
    apply in_map_iff in Hc as (d & <- & _). reflexivity.
  - unfold ComboboxList.widgets. cbn [ComboboxList.comboboxes].
    rewrite map_map. reflexivity.
  - unfold ComboboxList.texts. cbn [ComboboxList.comboboxes].
    rewrite map_map. reflexivity.
Qed.

Lemma update_label_start_time (now : datetime) (u : TimerLabelUpdater.t) :
  TimerLabelUpdater.start_time (snd (TimerLabelUpdater._update_label now u)) =
    TimerLabelUpdater.start_time u.
Proof.
  unfold TimerLabelUpdater._update_label.
  destruct (TimerLabelUpdater.start_time u) as [st|] eqn:E.
  - destruct (datetime_sub _ st); cbn; congruence.
  - cbn. congruence.
Qed.

(** When [startup] returns, the buttons mirror the start time read from
    the tool. *)
Lemma startup_buttons (now : datetime) (w : tracker) (a : App tracker) :
  startup strptime subprocess_run now w = (Ret tt, a) ->
  one_button_enabled a /\ buttons_mirror_session a.
Proof.
  app_steps.
  destruct (subprocess_run "watson projects" w) as [o1 w1]. app_steps.
  destruct (subprocess_run "watson tags" w1) as [o2 w2]. app_steps.
  destruct (subprocess_run "watson status" w2) as [o3 w3]. app_steps.
  destruct (start_time_of_status strptime o3) as [st|e]; [|discriminate].
  pose proof (update_label_start_time now (TimerLabelUpdater.mk "" st)) as Hst.
  destruct (TimerLabelUpdater._update_label now (TimerLabelUpdater.mk "" st))
    as [[[]|e] u]; [|discriminate].
  cbn [snd TimerLabelUpdater.start_time] in Hst. app_steps.
  intros [= <-]. unfold one_button_enabled, buttons_mirror_session.
  cbn [start_button_enabled stop_button_enabled time_label_updater].
  rewrite Hst. destruct st; split; try reflexivity; split; congruence.
Qed.

(** No action breaks the two facts about the buttons that hold after
    [startup]: one button is enabled and the other is not, and Start is
    enabled only when the timer has no start time. *)
Lemma handle_buttons (x : action) (a : App tracker) :
  one_button_enabled a /\
  (start_button_enabled a = true ->
   TimerLabelUpdater.start_time (time_label_updater a) = None) ->
  one_button_enabled (exec (handle strptime subprocess_run x) a) /\
  (start_button_enabled (exec (handle strptime subprocess_run x) a) = true ->
   TimerLabelUpdater.start_time
     (time_label_updater (exec (handle strptime subprocess_run x) a)) = None).
Proof.
  unfold one_button_enabled. destruct a as [w0 l p v0 t s u b1 b2].
  cbn [start_button_enabled stop_button_enabled time_label_updater].
  intros [H1 H2].
  assert (Hsame : forall (r : outcome unit) (w' : tracker) l' p' v' t' s' lbl,
            start_button_enabled
              (snd (r, mkApp w' l' p' v' t' s'
                         (TimerLabelUpdater.mk lbl (TimerLabelUpdater.start_time u))
                         b1 b2)) =
            negb (stop_button_enabled
              (snd (r, mkApp w' l' p' v' t' s'
                         (TimerLabelUpdater.mk lbl (TimerLabelUpdater.start_time u))
                         b1 b2))) /\
            (start_button_enabled
               (snd (r, mkApp w' l' p' v' t' s'
                          (TimerLabelUpdater.mk lbl (TimerLabelUpdater.start_time u))
                          b1 b2)) = true ->
             TimerLabelUpdater.start_time
               (time_label_updater
                  (snd (r, mkApp w' l' p' v' t' s'
                             (TimerLabelUpdater.mk lbl (TimerLabelUpdater.start_time u))
                             b1 b2))) = None)).
  { intros. split; [exact H1|exact H2]. }
  destruct u as [lbl st]. cbn [TimerLabelUpdater.start_time] in *.
  destruct x as [x | c | w v | | | | | now]; cbn [handle].
  - apply Hsame.
  - apply Hsame.
  - unfold exec, on_tags_list. cbn [tags_list].
    destruct (ComboboxList.write w v t). apply Hsame.
  - unfold exec, bind, gets. cbn [start_button_enabled].
    destruct b1; [|apply Hsame].
    destruct (string_dec p "") as [Hp | Hp].
    + rewrite empty_project_alert by exact Hp. apply Hsame.
    + rewrite on_start_commanded_run by exact Hp. cbv zeta.
      destruct (start_time_of_status _ _).
      * split; [reflexivity|discriminate].
      * apply Hsame.
  - unfold exec, bind, gets. cbn [stop_button_enabled].
    destruct b2; [|apply Hsame].
    rewrite on_stop_commanded_run. split; reflexivity.
  - unfold exec, show_log, show_message_dialog, execute_command, run_command,
      bind, emit, modify.
    cbn [watson]. destruct (subprocess_run "watson log" w0). apply Hsame.
  - unfold exec, show_csv, show_message_dialog, execute_command, run_command,
      bind, emit, modify.
    cbn [watson]. destruct (subprocess_run "watson report --csv" w0). apply Hsame.
  - unfold exec, on_time_label_updater. cbn [time_label_updater].
    pose proof (update_label_start_time now (TimerLabelUpdater.mk lbl st)) as Hst.
    destruct (TimerLabelUpdater._update_label now (TimerLabelUpdater.mk lbl st))
      as [r [lbl' st']].
    cbn [snd TimerLabelUpdater.start_time] in Hst. subst st'. apply Hsame.
Qed.

(** A click on Stop leaves Start enabled and the timer without a start
    time, when Stop was enabled. *)
Lemma stop_click_mirrors (a : App tracker) :
  one_button_enabled a ->
  (start_button_enabled a = true ->
   TimerLabelUpdater.start_time (time_label_updater a) = None) ->
  buttons_mirror_session (exec (handle strptime subprocess_run ClickStop) a).
Proof.
  unfold one_button_enabled, buttons_mirror_session. intros H1 H2.
  cbn [handle]. unfold exec, bind, gets.
  destruct (stop_button_enabled a) eqn:Hs.
  - rewrite on_stop_commanded_run. split; reflexivity.
  - unfold ret. cbn [snd]. cbn [negb] in H1.
    split; [exact H2|intros _; exact H1].
Qed.

(** C9, as amended: in every window reached from [startup], one of
    Start and Stop is enabled and the other is not, and when Start is
    enabled the timer has no start time; in the window a click on Stop
    leaves, Start is enabled exactly when the timer has no start
    time. *)
Theorem buttons_in_reachable_windows (a : App tracker) :
  reachable strptime subprocess_run a ->
  one_button_enabled a /\
  (start_button_enabled a = true ->
   TimerLabelUpdater.start_time (time_label_updater a) = None) /\
  buttons_mirror_session (exec (handle strptime subprocess_run ClickStop) a).
Proof.
  intros Hr.
  assert (H : one_button_enabled a /\
              (start_button_enabled a = true ->
               TimerLabelUpdater.start_time (time_label_updater a) = None)).
  { induction Hr as [now w a Hstart | a x _ IH].
    - destruct (startup_buttons now w a Hstart) as [H1 H2].
      split; [exact H1|apply H2].
    - now apply handle_buttons. }
  destruct H as [H1 H2]. split; [exact H1|]. split; [exact H2|].
  now apply stop_click_mirrors.
Qed.

End AppFacts.

Lemma start_with_empty_project_witness :
  project_combo_text (idle_window "" ComboboxList.init Now) = "" /\
  on_start_commanded strptime_fixed (sim_watson true)
      (idle_window "" ComboboxList.init Now) =
    (Ret tt,
     mkApp false [ShowError "Project name cannot be empty"] "" []
       ComboboxList.init Now (TimerLabelUpdater.mk "0:00:00" None) true false).
Proof.
  split; [reflexivity|].
  apply (start_with_empty_project strptime_fixed (sim_watson true)
           (idle_window "" ComboboxList.init Now)).
  reflexivity.
Defined.

Lemma start_carries_no_gap_witness :
  project_combo_text (idle_window "Alpha" two_tags LastStopTime) <> "" /\
  start_command_of (idle_window "Alpha" two_tags LastStopTime) =
    "watson start Alpha +x +y + --no-gap" /\
  ends_with "--no-gap" (start_command_of (idle_window "Alpha" two_tags LastStopTime)).
Proof.
  assert (Hp : project_combo_text (idle_window "Alpha" two_tags LastStopTime) <> "")
    by discriminate.
  split; [exact Hp|]. split; [vm_compute; reflexivity|].
  apply (proj1 (proj2 (proj2
           (start_carries_no_gap strptime_fixed (sim_watson true)
              (idle_window "Alpha" two_tags LastStopTime) Hp)))).
  reflexivity.
Defined.

(** C7, as stated, fails: with "Now" chosen and the project text
    [Alpha --no-gap], the command of line 19 has the flag among its
    arguments. *)
Lemma now_chosen_yet_no_gap :
  project_combo_text (idle_window "Alpha --no-gap" ComboboxList.init Now) <> "" /\
  start_at_combo (idle_window "Alpha --no-gap" ComboboxList.init Now) = Now /\
  start_command_of (idle_window "Alpha --no-gap" ComboboxList.init Now) =
    "watson start Alpha --no-gap + " /\
  carries_no_gap
    (start_command_of (idle_window "Alpha --no-gap" ComboboxList.init Now)) = true /\
  log (exec (on_start_commanded strptime_fixed (sim_watson true))
         (idle_window "Alpha --no-gap" ComboboxList.init Now)) =
    [Run "watson start Alpha --no-gap + "; Run "watson status";
     SetStartTime (Some (mkdatetime 2023 1 1 10 0 0 0 None));
     SetButtonEnabled StartButton false; SetButtonEnabled StopButton true].
Proof.
  split; [discriminate|]. split; [reflexivity|].
  split; [vm_compute; reflexivity|]. split; vm_compute; reflexivity.
Qed.

Example start_now_command :
  start_command_of (idle_window "Alpha" two_tags Now) = "watson start Alpha +x +y + ".
Proof. vm_compute. reflexivity. Qed.

Example stop_on_started_window :
  log (exec (on_stop_commanded (sim_watson true)) started_window) =
    log started_window ++
    [Run "watson stop";
     Run "watson projects";
     SetProjectValues [list_byte_of_string "Alpha"; list_byte_of_string "Beta"];
     Run "watson tags";
     SetTagOptions [list_byte_of_string "x"; list_byte_of_string "y"];
     SetStartTime None;
     SetButtonEnabled StartButton true;
     SetButtonEnabled StopButton false].
Proof. vm_compute. reflexivity. Qed.

Lemma buttons_in_reachable_windows_witness :
  reachable strptime_fixed (sim_watson true) started_window /\
  one_button_enabled started_window /\
  start_button_enabled started_window = false /\
  TimerLabelUpdater.start_time (time_label_updater started_window) =
    Some (mkdatetime 2023 1 1 10 0 0 0 None).
Proof.
  assert (Hr : reachable strptime_fixed (sim_watson true) started_window).
  { apply reachable_handle, (reachable_startup _ _ at_10_00_00 false).
    vm_compute. reflexivity. }
  split; [exact Hr|]. split.
  - exact (proj1 (buttons_in_reachable_windows strptime_fixed (sim_watson true)
                    started_window Hr)).
  - split; vm_compute; reflexivity.
Defined.

(** C9, as stated, fails: when the tool starts nothing, the status
    read after the start command reports no project; the timer gets no
    start time, yet Start is disabled and Stop enabled. *)
Lemma refused_start_disables_start :
  reachable strptime_fixed (sim_watson false) refused_start /\
  start_button_enabled refused_start = false /\
  stop_button_enabled refused_start = true /\
  TimerLabelUpdater.start_time (time_label_updater refused_start) = None /\
  ~ buttons_mirror_session refused_start.
Proof.
  split.
  { apply reachable_handle, (reachable_startup _ _ at_10_00_00 false).
    vm_compute. reflexivity. }
  split; [vm_compute; reflexivity|]. split; [vm_compute; reflexivity|].
  assert (Hst : TimerLabelUpdater.start_time (time_label_updater refused_start) = None)
    by (vm_compute; reflexivity).
  split; [exact Hst|].
  intros [_ H]. specialize (H Hst). vm_compute in H. discriminate H.
Qed.

(** * Further properties *)

(** ** ComboboxList: options, parallel lists, exceptions *)

Module ComboboxListMore.
Import ComboboxList ComboboxListFacts.

Lemma wf_set_options (opts : list bytes) (l : t) :
  wf l -> wf (exec (set_options opts) l).
Proof.
  unfold wf, widgets. cbn. rewrite map_map. cbn. intros H. exact H.
Qed.

Lemma options_shown_step (l : t) (e : event) :
  wf l -> options_shown l -> options_shown (step l e).
Proof.
  intros Hwf Hs. destruct e as [w v]. unfold step, exec, options_shown in *.
  destruct (in_dec Nat.eq_dec w (widgets l)) as [Hin | Hout].
  2:{ now rewrite write_dead. }
  apply in_widgets_split in Hin as (pre & c & post & Hcs & <-).
  rewrite Hcs in Hs. apply Forall_app in Hs as [Hpre Hcpost].
  inversion Hcpost as [|? ? Hc Hpost]. subst.
  destruct (string_dec v "") as [-> | Hv].
  - destruct (pre ++ post) as [|x xs] eqn:Hpp.
    + apply app_eq_nil in Hpp as [-> ->].
      rewrite (write_last l [] c "" Hwf Hcs) by now right.
      cbn. repeat constructor. exact Hc.
    + rewrite (write_remove l pre c post Hwf Hcs) by (rewrite Hpp; discriminate).
      cbn. apply Forall_app. now split.
  - destruct post as [|d post].
    + rewrite (write_last l pre c v Hwf Hcs) by now left.
      cbn. apply Forall_app. split; [assumption|]. repeat constructor. exact Hc.
    + rewrite (write_interior l pre c (d :: post) v Hwf Hcs) by (discriminate || assumption).
      cbn. apply Forall_app. split; [assumption|]. constructor; assumption.
Qed.

Lemma nonempty_step (l : t) (e : event) :
  wf l -> comboboxes l <> [] -> comboboxes (step l e) <> [].
Proof.
  intros Hwf Hne. destruct e as [w v]. unfold step, exec.
  destruct (in_dec Nat.eq_dec w (widgets l)) as [Hin | Hout].
  2:{ now rewrite write_dead. }
  apply in_widgets_split in Hin as (pre & c & post & Hcs & <-).
  destruct (string_dec v "") as [-> | Hv].
  - destruct (pre ++ post) as [|x xs] eqn:Hpp.
    + apply app_eq_nil in Hpp as [-> ->].
      rewrite (write_last l [] c "" Hwf Hcs) by now right. discriminate.
    + rewrite (write_remove l pre c post Hwf Hcs) by (rewrite Hpp; discriminate).
      cbn. rewrite Hpp. discriminate.
  - destruct post as [|d post].
    + rewrite (write_last l pre c v Hwf Hcs) by now left.
      cbn. destruct pre; discriminate.
    + rewrite (write_interior l pre c (d :: post) v Hwf Hcs) by (discriminate || assumption).
      cbn. destruct pre; discriminate.
Qed.

(** What every operation keeps. *)
Lemma kept_by_ops (os : list op) (l : t) :
  wf l -> comboboxes l <> [] -> options_shown l ->
  wf (run_ops os l) /\ comboboxes (run_ops os l) <> [] /\
  options_shown (run_ops os l).
Proof.
  revert l. induction os as [|o os IH]; intros l Hwf Hne Hs.
  { split; [exact Hwf|]. split; [exact Hne|exact Hs]. }
  change (run_ops (o :: os) l) with (run_ops os (apply_op l o)).
  apply IH; destruct o as [e | opts]; cbn [apply_op].
  - now apply wf_step.
  - now apply wf_set_options.
  - now apply nonempty_step.
  - cbn. destruct (comboboxes l); [now elim Hne|discriminate].
  - now apply options_shown_step.
  - unfold options_shown. cbn. apply Forall_forall. intros c Hc.
    apply in_map_iff in Hc as (d & <- & _). reflexivity.
Qed.

Lemma write_listed (l : t) (w : nat) (v : string) :
  wf l -> In w (widgets l) -> eval (write w v) l = Ret tt.
Proof.
  intros Hwf Hin. unfold eval.
  apply in_widgets_split in Hin as (pre & c & post & Hcs & <-).
  destruct (string_dec v "") as [-> | Hv].
  - destruct (pre ++ post) as [|x xs] eqn:Hpp.
    + apply app_eq_nil in Hpp as [-> ->].
      now rewrite (write_last _ [] c "" Hwf Hcs) by now right.
    + now rewrite (write_remove _ pre c post Hwf Hcs) by (rewrite Hpp; discriminate).
  - destruct post as [|d post].
    + now rewrite (write_last _ pre c v Hwf Hcs) by now left.
    + now rewrite (write_interior _ pre c (d :: post) v Hwf Hcs)
        by (discriminate || assumption).
Qed.

Lemma options_step (l : t) (e : event) :
  wf l -> options (step l e) = options l.
Proof.
  intros Hwf. destruct e as [w v]. unfold step, exec.
  destruct (in_dec Nat.eq_dec w (widgets l)) as [Hin | Hout].
  2:{ now rewrite write_dead. }
  apply in_widgets_split in Hin as (pre & c & post & Hcs & <-).
  destruct (string_dec v "") as [-> | Hv].
  - destruct (pre ++ post) as [|x xs] eqn:Hpp.
    + apply app_eq_nil in Hpp as [-> ->].
      now rewrite (write_last l [] c "" Hwf Hcs) by now right.
    + now rewrite (write_remove l pre c post Hwf Hcs) by (rewrite Hpp; discriminate).
  - destruct post as [|d post].
    + now rewrite (write_last l pre c v Hwf Hcs) by now left.
    + now rewrite (write_interior l pre c (d :: post) v Hwf Hcs)
        by (discriminate || assumption).
Qed.

Lemma options_run_ops (os : list op) (l : t) :
  wf l -> options (run_ops os l) = options_after os (options l).
Proof.
  revert l. induction os as [|o os IH]; intros l Hwf; [reflexivity|].
  change (run_ops (o :: os) l) with (run_ops os (apply_op l o)).
  destruct o as [e | opts]; cbn [apply_op options_after].
  - rewrite IH by now apply wf_step. now rewrite options_step.
  - rewrite IH by now apply wf_set_options. reflexivity.
Qed.

(** Whatever is written to the slots, changing their texts or not, and
    whenever [set_options] is called: the widgets stay distinct,
    [combobox_values] stays as long as [comboboxes], one slot at least
    remains, and the list and every slot, also one appended since,
    offer the options handed to the last call of [set_options], none
    before the first call. *)
Theorem lists_stay_parallel (os : list op) :
  NoDup (widgets (run_ops os init)) /\
  List.length (combobox_values (run_ops os init)) =
    List.length (comboboxes (run_ops os init)) /\
  1 <= List.length (comboboxes (run_ops os init)) /\
  options (run_ops os init) = options_after os [] /\
  Forall (fun c => values c = options_after os [])
         (comboboxes (run_ops os init)).
Proof.
  destruct (kept_by_ops os init) as ((Hnd & Hv & _) & Hne & Hs).
  - exact wf_init.
  - discriminate.
  - repeat constructor.
  - pose proof (options_run_ops os init wf_init) as Ho.
    change (options init) with (@nil bytes) in Ho.
    split; [exact Hnd|]. split; [|split; [|split; [exact Ho|]]].
    + rewrite Hv. unfold widgets. apply length_map.
    + destruct (comboboxes (run_ops os init)); [now elim Hne|simpl; lia].
    + unfold options_shown in Hs. now rewrite Ho in Hs.
Qed.

(** [set_options] touches no text: the slots, their texts, their value
    holders and the result of [get_values] are as before, and every
    slot offers the new options. *)
Theorem set_options_keeps_texts (opts : list bytes) (l : t) :
  eval (set_options opts) l = Ret tt /\
  texts (exec (set_options opts) l) = texts l /\
  widgets (exec (set_options opts) l) = widgets l /\
  combobox_values (exec (set_options opts) l) = combobox_values l /\
  get_values (exec (set_options opts) l) = get_values l /\
  options (exec (set_options opts) l) = opts /\
  Forall (fun c => values c = opts) (comboboxes (exec (set_options opts) l)).
Proof.
  rewrite !get_values_all. unfold texts, widgets. cbn. rewrite !map_map. cbn.
  repeat split; try (now apply map_ext).
  apply Forall_forall. intros c Hc. apply in_map_iff in Hc as (d & <- & _).
  reflexivity.
Qed.

(** In a list reached from the new one, an event on a slot of the list
    returns normally: the index is found and both deletions are in
    range.  An event on a widget that left the list raises [TclError]
    and changes nothing. *)
Theorem events_never_miss (os : list op) (w : nat) (v : string) :
  (In w (widgets (run_ops os init)) ->
   eval (write w v) (run_ops os init) = Ret tt) /\
  (~ In w (widgets (run_ops os init)) ->
   write w v (run_ops os init) = (Exc TclError, run_ops os init)).
Proof.
  destruct (kept_by_ops os init) as (Hwf & _ & _);
    [exact wf_init|discriminate|repeat constructor|].
  split; [now apply write_listed|apply write_dead].
Qed.

Lemma events_never_miss_witness :
  In 1 (widgets (run_ops [Event (Write 0 "a"); SetOptions []; Event (Write 1 "b")] init)) /\
  eval (write 1 "")
    (run_ops [Event (Write 0 "a"); SetOptions []; Event (Write 1 "b")] init) = Ret tt /\
  ~ In 7 (widgets (run_ops [Event (Write 0 "a"); SetOptions []; Event (Write 1 "b")] init)) /\
  eval (write 7 "x")
    (run_ops [Event (Write 0 "a"); SetOptions []; Event (Write 1 "b")] init) =
    Exc TclError.
Proof.
  assert (H1 : In 1 (widgets (run_ops
            [Event (Write 0 "a"); SetOptions []; Event (Write 1 "b")] init))).
  { cbn. tauto. }
  assert (H7 : ~ In 7 (widgets (run_ops
            [Event (Write 0 "a"); SetOptions []; Event (Write 1 "b")] init))).
  { cbn. intros [H | [H | [H | []]]]; discriminate H. }
  split; [exact H1|]. split.
  - exact (proj1 (events_never_miss
             [Event (Write 0 "a"); SetOptions []; Event (Write 1 "b")] 1 "") H1).
  - split; [exact H7|]. unfold eval.
    rewrite (proj2 (events_never_miss
               [Event (Write 0 "a"); SetOptions []; Event (Write 1 "b")] 7 "x") H7).
    reflexivity.
Defined.

Lemma same_slots_split (l l' : t) pre c post :
  same_slots l l' -> comboboxes l = pre ++ c :: post ->
  exists pre' c' post',
    comboboxes l' = pre' ++ c' :: post' /\
    map slot_key pre = map slot_key pre' /\ slot_key c = slot_key c' /\
    map slot_key post = map slot_key post'.
Proof.
  intros (Hk & _ & _) Hcs. rewrite Hcs, map_app in Hk. cbn [map] in Hk.
  symmetry in Hk. apply map_eq_app in Hk as (pre' & rest & -> & Hpre & Hrest).
  apply map_eq_cons in Hrest as (c' & post' & -> & Hc & Hpost).
  exists pre', c', post'. repeat split; congruence.
Qed.

Lemma widgets_of_keys (cs : list Combobox) :
  map widget cs = map fst (map slot_key cs).
Proof. now rewrite map_map. Qed.

Lemma texts_of_keys (cs : list Combobox) :
  map text cs = map snd (map slot_key cs).
Proof. now rewrite map_map. Qed.

Lemma slot_key_nil (xs ys : list Combobox) :
  map slot_key xs = map slot_key ys -> xs = [] -> ys = [].
Proof. intros H ->. destruct ys; [reflexivity|discriminate]. Qed.

(** An event does the same to two lists that differ in their options
    only. *)
Lemma same_slots_step (l l' : t) (e : event) :
  wf l -> wf l' -> same_slots l l' -> same_slots (step l e) (step l' e).
Proof.
  intros Hwf Hwf' Hsame. destruct e as [w v]. unfold step, exec.
  assert (Hwid : widgets l = widgets l').
  { destruct Hsame as (Hk & _ & _). unfold widgets.
    now rewrite !widgets_of_keys, Hk. }
  destruct (in_dec Nat.eq_dec w (widgets l)) as [Hin | Hout].
  2:{ rewrite !write_dead by congruence. exact Hsame. }
  apply in_widgets_split in Hin as (pre & c & post & Hcs & <-).
  destruct (same_slots_split l l' pre c post Hsame Hcs)
    as (pre' & c' & post' & Hcs' & Hpre & Hc & Hpost).
  assert (Hw : widget c = widget c') by (now injection Hc).
  destruct Hsame as (Hk & Hv & Hn).
  assert (Hpp : map slot_key (pre ++ post) = map slot_key (pre' ++ post'))
    by (rewrite !map_app; congruence).
  destruct (string_dec v "") as [-> | Hne].
  - destruct (pre ++ post) as [|x xs] eqn:E.
    + apply app_eq_nil in E as [-> ->].
      pose proof (slot_key_nil [] pre' Hpre eq_refl) as Hp'.
      pose proof (slot_key_nil [] post' Hpost eq_refl) as Hq'. subst.
      rewrite (write_last l [] c "" Hwf Hcs) by now right. rewrite Hw.
      rewrite (write_last l' [] c' "" Hwf' Hcs') by now right.
      unfold same_slots, slot_key. cbn. now rewrite Hw, Hv, Hn.
    + assert (pre' ++ post' <> []).
      { intros E'. rewrite E' in Hpp. discriminate Hpp. }
      rewrite <- E in Hpp.
      rewrite (write_remove l pre c post Hwf Hcs) by (rewrite E; discriminate).
      rewrite Hw.
      rewrite (write_remove l' pre' c' post' Hwf' Hcs') by assumption.
      unfold same_slots. cbn. split; [exact Hpp|]. split; [|exact Hn].
      now rewrite !widgets_of_keys, Hpp.
  - destruct post as [|d post].
    + pose proof (slot_key_nil [] post' Hpost eq_refl) as Hq'. subst.
      rewrite (write_last l pre c v Hwf Hcs) by now left. rewrite Hw.
      rewrite (write_last l' pre' c' v Hwf' Hcs') by now left.
      unfold same_slots. cbn. rewrite !map_app. cbn.
      unfold slot_key at 2 3 5 6. cbn. now rewrite Hpre, Hw, Hv, Hn.
    + destruct post' as [|d' post']; [discriminate Hpost|].
      rewrite (write_interior l pre c (d :: post) v Hwf Hcs) by (discriminate || assumption).
      rewrite Hw.
      rewrite (write_interior l' pre' c' (d' :: post') v Hwf' Hcs')
        by (discriminate || assumption).
      unfold same_slots. cbn [snd comboboxes combobox_values next_widget].
      rewrite !map_app. cbn [map] in Hpost |- *.
      unfold slot_key at 2 5. cbn [widget text with_text].
      now rewrite Hpre, Hw, Hpost, Hv, Hn.
Qed.

Lemma same_slots_set_options (opts : list bytes) (l : t) :
  same_slots (exec (set_options opts) l) l.
Proof.
  unfold same_slots. cbn. rewrite map_map. repeat split.
Qed.

Lemma same_slots_trans (a b c : t) :
  same_slots a b -> same_slots b c -> same_slots a c.
Proof. unfold same_slots. intros (?&?&?) (?&?&?). repeat split; congruence. Qed.

Lemma same_slots_ops (os : list op) (l l' : t) :
  wf l -> wf l' -> same_slots l l' ->
  same_slots (run_ops os l) (run (events_of os) l').
Proof.
  revert l l'. induction os as [|o os IH]; intros l l' Hwf Hwf' Hs; [exact Hs|].
  change (run_ops (o :: os) l) with (run_ops os (apply_op l o)).
  destruct o as [e | opts]; cbn [apply_op events_of].
  - change (run (e :: events_of os) l') with (run (events_of os) (step l' e)).
    apply IH; [now apply wf_step|now apply wf_step|now apply same_slots_step].
  - apply IH; [now apply wf_set_options|exact Hwf'|].
    eapply same_slots_trans; [apply same_slots_set_options|exact Hs].
Qed.

(** Calls of [set_options] change nothing of what is entered: the
    slots and their texts are those the events alone give, wherever the
    calls fall among them. *)
Theorem set_options_commute (os : list op) :
  widgets (run_ops os init) = widgets (run (events_of os) init) /\
  texts (run_ops os init) = texts (run (events_of os) init) /\
  get_values (run_ops os init) = get_values (run (events_of os) init).
Proof.
  destruct (same_slots_ops os init init wf_init wf_init) as (Hk & _ & _).
  { repeat split. }
  rewrite !get_values_all. unfold widgets, texts.
  rewrite !widgets_of_keys, !texts_of_keys, Hk. repeat split.
Qed.

End ComboboxListMore.

(** ** [get_projects] and [get_tags]: the lines of the output *)

Lemma splitlines_from_lf (cur line rest : bytes) :
  no_line_break line ->
  splitlines_from cur (line ++ x0a :: rest) =
    (cur ++ line) :: splitlines_from [] rest.
Proof.
  revert cur. induction line as [|x line IH]; intros cur [Hlf Hcr].
  - cbn. now rewrite app_nil_r.
  - cbn [app splitlines_from].
    destruct (Byte.eqb x x0a) eqn:E1.
    { apply Byte.byte_dec_bl in E1. elim Hlf. now left. }
    destruct (Byte.eqb x x0d) eqn:E2.
    { apply Byte.byte_dec_bl in E2. elim Hcr. now left. }
    rewrite IH by (split; intros H; [apply Hlf|apply Hcr]; now right).
    now rewrite <- app_assoc.
Qed.

Lemma splitlines_from_crlf (cur line rest : bytes) :
  no_line_break line ->
  splitlines_from cur (line ++ x0d :: x0a :: rest) =
    (cur ++ line) :: splitlines_from [] rest.
Proof.
  revert cur. induction line as [|x line IH]; intros cur [Hlf Hcr].
  - cbn. now rewrite app_nil_r.
  - cbn [app splitlines_from].
    destruct (Byte.eqb x x0a) eqn:E1.
    { apply Byte.byte_dec_bl in E1. elim Hlf. now left. }
    destruct (Byte.eqb x x0d) eqn:E2.
    { apply Byte.byte_dec_bl in E2. elim Hcr. now left. }
    rewrite IH by (split; intros H; [apply Hlf|apply Hcr]; now right).
    now rewrite <- app_assoc.
Qed.

(** [splitlines] gives back the labels that were printed one to a line,
    with either line end, empty labels included; an empty output gives
    no label. *)
Theorem splitlines_print_lines (labels : list bytes) :
  Forall no_line_break labels ->
  splitlines (print_lines [x0a] labels) = labels /\
  splitlines (print_lines [x0d; x0a] labels) = labels.
Proof.
  unfold splitlines, print_lines. induction 1 as [|label labels Hl _ [IH1 IH2]].
  - split; reflexivity.
  - cbn [map List.concat]. rewrite <- !app_assoc. cbn [app]. split.
    + rewrite splitlines_from_lf by assumption. now rewrite IH1.
    + rewrite splitlines_from_crlf by assumption. now rewrite IH2.
Qed.

Lemma splitlines_print_lines_witness :
  Forall no_line_break [list_byte_of_string "Alpha"; []; list_byte_of_string "Beta"] /\
  splitlines (print_lines [x0d; x0a]
                [list_byte_of_string "Alpha"; []; list_byte_of_string "Beta"]) =
    [list_byte_of_string "Alpha"; []; list_byte_of_string "Beta"].
Proof.
  assert (H : Forall no_line_break
                [list_byte_of_string "Alpha"; []; list_byte_of_string "Beta"]).
  { repeat constructor; cbn; intuition discriminate. }
  split; [exact H|].
  exact (proj2 (splitlines_print_lines _ H)).
Defined.

Lemma splitlines_from_clean (cur b : bytes) (line : bytes) :
  no_line_break cur -> In line (splitlines_from cur b) -> no_line_break line.
Proof.
  revert cur. induction b as [|x b IH]; intros cur Hcur Hin.
  - cbn in Hin. destruct cur; [destruct Hin|]. destruct Hin as [<- | []]. exact Hcur.
  - cbn [splitlines_from] in Hin.
    assert (Hnil : no_line_break []) by (split; intros []).
    destruct (Byte.eqb x x0a) eqn:E1.
    { destruct Hin as [<- | Hin]; [exact Hcur|now apply (IH [])]. }
    destruct (Byte.eqb x x0d) eqn:E2.
    { destruct b as [|y b'].
      - destruct Hin as [<- | []]. exact Hcur.
      - destruct (Byte.eqb y x0a) eqn:E3.
        + destruct Hin as [<- | Hin]; [exact Hcur|].
          apply (IH [] Hnil). cbn [splitlines_from]. rewrite E3. now right.
        + destruct Hin as [<- | Hin]; [exact Hcur|now apply (IH [])]. }
    apply (IH (cur ++ [x])); [|exact Hin].
    destruct Hcur as [Hlf Hcr]. split; intros H; apply in_app_or in H as [H | [-> | []]].
    + now apply Hlf.
    + discriminate E1.
    + now apply Hcr.
    + discriminate E2.
Qed.

(** Whatever the output holds, no label that [splitlines] returns holds
    a line feed or a carriage return. *)
Theorem splitlines_no_line_break (out line : bytes) :
  In line (splitlines out) -> no_line_break line.
Proof.
  apply splitlines_from_clean. split; intros [].
Qed.

Lemma splitlines_no_line_break_witness :
  In (list_byte_of_string "Beta")
     (splitlines (fst (sim_watson true "watson projects" false))) /\
  no_line_break (list_byte_of_string "Beta").
Proof.
  assert (H : In (list_byte_of_string "Beta")
                 (splitlines (fst (sim_watson true "watson projects" false)))).
  { vm_compute. tauto. }
  split; [exact H|].
  exact (splitlines_no_line_break _ _ H).
Defined.

(** ** The status parser: marker, parentheses, matches *)

Lemma lazy_close_shape (t m r : string) :
  lazy_close t = Some (m, r) ->
  t = m +++ r /\
  exists a, m = a +++ ")" /\ has_char ")" a = false /\ has_char newline a = false.
Proof.
  revert m. induction t as [|d t IH]; intros m; simpl; [discriminate|].
  destruct (Ascii.eqb d ")") eqn:Hd.
  - intros [= <- <-]. apply Ascii.eqb_eq in Hd as ->.
    split; [reflexivity|]. now exists "".
  - destruct (Ascii.eqb d newline) eqn:Hn; [discriminate|].
    destruct (lazy_close t) as [[m' r']|]; [|discriminate].
    intros [= <- <-]. destruct (IH m' eq_refl) as (-> & a & -> & Ha1 & Ha2).
    split; [reflexivity|]. exists (String d a). cbn [has_char String.append].
    now rewrite Hd, Hn, Ha1, Ha2.
Qed.

Lemma findall_shape_bounded (n : nat) (s : string) :
  String.length s <= n ->
  Forall (fun m =>
            (exists a, m = String "(" (a +++ ")") /\
                       has_char ")" a = false /\ has_char newline a = false) /\
            exists p q, s = p +++ m +++ q)
         (findall_parens s).
Proof.
  revert s. induction n as [|n IH]; intros s Hlen.
  - destruct s; [constructor|simpl in Hlen; lia].
  - destruct s as [|c t]; [constructor|]. simpl in Hlen.
    assert (Htail : Forall (fun m =>
              (exists a, m = String "(" (a +++ ")") /\
                         has_char ")" a = false /\ has_char newline a = false) /\
              exists p q, String c t = p +++ m +++ q) (findall_parens t)).
    { eapply Forall_impl; [|apply (IH t); lia].
      intros m [Hm (p & q & ->)]. split; [exact Hm|]. now exists (String c p), q. }
    destruct (Ascii.eqb c "(") eqn:Hc.
    + apply Ascii.eqb_eq in Hc as ->. rewrite findall_open.
      destruct (lazy_close t) as [[m r]|] eqn:Ht; [|exact Htail].
      pose proof (lazy_close_shorter t m r Ht) as Hr.
      destruct (lazy_close_shape t m r Ht) as (-> & a & -> & Ha1 & Ha2).
      constructor.
      * split; [now exists a|]. exists "", r. reflexivity.
      * eapply Forall_impl; [|apply (IH r); lia].
        intros m [Hm (p & q & ->)]. split; [exact Hm|].
        exists (String "(" ((a +++ ")") +++ p)), q.
        cbn. now rewrite !append_assoc.
    + rewrite findall_other by assumption. exact Htail.
Qed.

(** Every match of the pattern of line 52 is a run of the text that an
    opening parenthesis starts and the first closing parenthesis after
    it ends, with no newline in between. *)
Theorem findall_parens_shape (s : string) :
  Forall (fun m =>
            (exists a, m = String "(" (a +++ ")") /\
                       has_char ")" a = false /\ has_char newline a = false) /\
            exists p q, s = p +++ m +++ q)
         (findall_parens s).
Proof. apply (findall_shape_bounded (String.length s)). lia. Qed.

Lemma lazy_close_no_close (t : string) :
  has_char ")" t = false -> lazy_close t = None.
Proof.
  induction t as [|d t IH]; [reflexivity|]. cbn [has_char lazy_close]. intros H.
  apply orb_false_iff in H as [Hd Ht]. rewrite Hd, (IH Ht).
  now destruct (Ascii.eqb d newline).
Qed.

Lemma findall_no_close (s : string) :
  has_char ")" s = false -> findall_parens s = [].
Proof.
  induction s as [|c t IH]; [reflexivity|]. cbn [has_char]. intros H.
  apply orb_false_iff in H as [_ Ht].
  destruct (Ascii.eqb c "(") eqn:Hc.
  - apply Ascii.eqb_eq in Hc as ->.
    rewrite findall_open, lazy_close_no_close by assumption. now apply IH.
  - rewrite findall_other by assumption. now apply IH.
Qed.

Section StatusMore.

Variable strptime : string -> string -> option datetime.

(** The parser reports that nothing runs exactly when the bytes of the
    marker occur in the output: writing the bytes out with [str], which
    escapes quotes, backslashes and bytes that do not print, neither
    hides the marker nor makes one up. *)
Theorem idle_exactly_on_marker (out : bytes) :
  start_time_of_status strptime out = Ret None <-> has_marker out.
Proof.
  split.
  - intros H. apply marker_in_str_bytes. unfold start_time_of_status in H.
    destruct (contains no_project_marker (str_bytes out)); [reflexivity|].
    destruct (negb _); [discriminate|].
    destruct (nth_error _ 0); [|discriminate].
    destruct (strptime _ _); discriminate.
  - intros H. apply marker_in_str_bytes in H. unfold start_time_of_status.
    now rewrite H.
Qed.

(** An output without the marker that lacks an opening or a closing
    parenthesis, the empty output of a failed command among them,
    raises the source's exception. *)
Theorem status_without_parenthesis (out : bytes) :
  ~ has_marker out -> ~ In x28 out \/ ~ In x29 out ->
  start_time_of_status strptime out = Exc ProtocolError.
Proof.
  intros Hm Hp. rewrite (start_time_of_status_matches strptime out Hm).
  pose proof (repr_quote_cases out) as Hq.
  assert (E : findall_parens (str_bytes out) = []).
  { unfold str_bytes. destruct Hp as [Hp | Hp].
    - apply findall_none. cbn [has_char].
      rewrite has_char_app, repr_bytes_no_open by assumption.
      destruct Hq as [-> | ->]; reflexivity.
    - apply findall_no_close. cbn [has_char].
      rewrite has_char_app, repr_bytes_no_close by assumption.
      destruct Hq as [-> | ->]; reflexivity. }
  now rewrite E.
Qed.

End StatusMore.

Lemma status_without_parenthesis_witness :
  ~ has_marker [] /\ (~ In x28 [] \/ ~ In x29 []) /\
  start_time_of_status strptime_fixed [] = Exc ProtocolError.
Proof.
  assert (Hm : ~ has_marker []) by (apply no_marker_by_search; reflexivity).
  assert (Hp : ~ In x28 [] \/ ~ In x29 (@nil byte)) by (left; intros []).
  split; [exact Hm|]. split; [exact Hp|].
  exact (status_without_parenthesis strptime_fixed [] Hm Hp).
Defined.

Lemma status_single_group_witness :
  ~ has_marker
      (list_byte_of_string "Project Alpha [x, y] started just now " ++
       [x28] ++ list_byte_of_string "2023.01.01 10:00:00+0100" ++
       [x29] ++ [x0d; x0a]) /\
  ~ In x28 (list_byte_of_string "Project Alpha [x, y] started just now ") /\
  ~ In x29 (list_byte_of_string "2023.01.01 10:00:00+0100") /\
  ~ In x28 [x0d; x0a] /\
  start_time_of_status strptime_fixed
      (list_byte_of_string "Project Alpha [x, y] started just now " ++
       [x28] ++ list_byte_of_string "2023.01.01 10:00:00+0100" ++
       [x29] ++ [x0d; x0a]) =
    Ret (Some (mkdatetime 2023 1 1 10 0 0 0 None)).
Proof.
  assert (Hm : ~ has_marker
      (list_byte_of_string "Project Alpha [x, y] started just now " ++
       [x28] ++ list_byte_of_string "2023.01.01 10:00:00+0100" ++
       [x29] ++ [x0d; x0a])) by (apply no_marker_by_search; reflexivity).
  assert (Hp : ~ In x28
      (list_byte_of_string "Project Alpha [x, y] started just now "))
    by (vm_compute; intuition discriminate).
  assert (Ha : ~ In x29 (list_byte_of_string "2023.01.01 10:00:00+0100"))
    by (vm_compute; intuition discriminate).
  assert (Hr : ~ In x28 [x0d; x0a]) by (vm_compute; intuition discriminate).
  split; [exact Hm|]. split; [exact Hp|]. split; [exact Ha|]. split; [exact Hr|].
  rewrite (status_single_group strptime_fixed _ _ _ Hm Hp Ha Hr).
  reflexivity.
Defined.

(** ** TimerLabelUpdater: ticks and start times *)

Module TimerLabelUpdaterMore.
Import TimerLabelUpdater.

Lemma datetime_sub_aware (now st : datetime) (off : timedelta) :
  tzinfo now = None -> tzinfo st = Some off ->
  datetime_sub (replace_microsecond_0 now) st = Exc TypeError.
Proof.
  intros Hn Hs. unfold datetime_sub. cbn [tzinfo replace_microsecond_0].
  now rewrite Hn, Hs.
Qed.

Lemma update_label_naive (now : datetime) (u : t) :
  tzinfo now = None -> naive (start_time u) ->
  exists label, _update_label now u = (Ret tt, mk label (start_time u)).
Proof.
  intros Hn Hs. unfold _update_label.
  destruct (start_time u) as [st|]; [|now eexists].
  cbn [naive] in Hs. unfold datetime_sub. cbn [tzinfo replace_microsecond_0].
  rewrite Hn, Hs. cbn [option_timedelta_eqb]. now eexists.
Qed.

(** The label shows the last tick only: with the clock of
    [datetime.now()], which has no offset, a tick after another leaves
    what it would have left without the other, and no tick touches the
    start time. *)
Theorem last_tick_wins (u : t) (now1 now2 : datetime) :
  tzinfo now1 = None -> tzinfo now2 = None ->
  exec (_update_label now2) (exec (_update_label now1) u) =
    exec (_update_label now2) u /\
  start_time (exec (_update_label now1) u) = start_time u.
Proof.
  intros H1 H2. destruct u as [lbl [st|]]; unfold exec, _update_label;
    cbn [start_time]; [|split; reflexivity].
  destruct st as [y mo d h mi s us [off|]];
    unfold datetime_sub; cbn [tzinfo replace_microsecond_0]; rewrite H1, H2;
    cbn [option_timedelta_eqb snd start_time]; split; reflexivity.
Qed.

(** A start time that carries an offset cannot be subtracted from the
    clock of [datetime.now()]: the tick raises [TypeError] and the
    label keeps its text. *)
Theorem aware_start_time_raises (u : t) (now st : datetime) (off : timedelta) :
  tzinfo now = None -> start_time u = Some st -> tzinfo st = Some off ->
  _update_label now u = (Exc TypeError, u).
Proof.
  intros Hn Hu Hs. unfold _update_label. rewrite Hu.
  now rewrite (datetime_sub_aware now st off Hn Hs).
Qed.

End TimerLabelUpdaterMore.

Lemma last_tick_wins_witness :
  tzinfo at_10_00_00 = None /\ tzinfo at_10_02_05 = None /\
  TimerLabelUpdater.label_text
    (exec (TimerLabelUpdater._update_label at_10_02_05)
       (exec (TimerLabelUpdater._update_label at_10_00_00)
          (time_label_updater started_window))) = "0:02:05".
Proof.
  split; [reflexivity|]. split; [reflexivity|].
  rewrite (proj1 (TimerLabelUpdaterMore.last_tick_wins
                    (time_label_updater started_window)
                    at_10_00_00 at_10_02_05 eq_refl eq_refl)).
  vm_compute. reflexivity.
Defined.

Lemma aware_start_time_raises_witness :
  tzinfo at_10_02_05 = None /\
  strptime_fixed "(2023.01.01 10:00:00+0100)" status_time_format =
    Some (mkdatetime 2023 1 1 10 0 0 0 (Some (timedelta_new 0 3600 0))) /\
  TimerLabelUpdater._update_label at_10_02_05
    (TimerLabelUpdater.mk "0:00:00"
       (strptime_fixed "(2023.01.01 10:00:00+0100)" status_time_format)) =
  (Exc TypeError,
   TimerLabelUpdater.mk "0:00:00"
     (strptime_fixed "(2023.01.01 10:00:00+0100)" status_time_format)).
Proof.
  split; [reflexivity|]. split; [reflexivity|].
  apply (TimerLabelUpdaterMore.aware_start_time_raises _ at_10_02_05
           (mkdatetime 2023 1 1 10 0 0 0 (Some (timedelta_new 0 3600 0)))
           (timedelta_new 0 3600 0)); reflexivity.
Defined.

(** ** The window: startup, dialogs, failures, reachable windows *)

Lemma commands_app (l l' : list effect) :
  commands (l ++ l') = commands l ++ commands l'.
Proof.
  induction l as [|e l IH]; [reflexivity|]. destruct e; cbn; congruence.
Qed.

Lemma known_start_command (project : string) (tags : list string) (g : Z) :
  known_command (start_frame_command project tags g) = true.
Proof.
  unfold known_command, start_frame_command. now rewrite starts_with_app.
Qed.

Section AppMore.

Variable strptime : string -> string -> option datetime.
Context {tracker : Type}.
Variable subprocess_run : string -> tracker -> bytes * tracker.

Lemma start_time_of_status_naive (out : bytes) (st : option datetime) :
  start_time_of_status strptime out = Ret st -> naive st.
Proof.
  unfold start_time_of_status.
  destruct (contains _ _); [intros [= <-]; exact I|].
  destruct (negb _); [discriminate|].
  destruct (nth_error _ 0) as [m|]; [|discriminate].
  destruct (strptime m _); [|discriminate].
  intros [= <-]. reflexivity.
Qed.

Lemma dialog_run (command : string) (a : App tracker) :
  (out <- execute_command subprocess_run command ;; show_message_dialog out) a =
    (Ret tt,
     mkApp (snd (subprocess_run command (watson a)))
       (log a ++ [Run command;
                  ShowMessageDialog (fst (subprocess_run command (watson a)))])
       (project_combo_text a) (project_combo_values a) (tags_list a)
       (start_at_combo a) (time_label_updater a)
       (start_button_enabled a) (stop_button_enabled a)).
Proof.
  destruct a as [w l p v t s u b1 b2]. app_steps.
  destruct (subprocess_run command w) as [o w']. app_steps.
  now rewrite <- app_assoc.
Qed.

(** When the answer to [watson status] does not parse, the exception
    leaves [on_start_commanded] after the start command has run: the
    tool has been asked to start the frame, yet the timer, both buttons
    and the fields are as before the click. *)
Theorem failed_status_after_start (a : App tracker) (e : exn) :
  project_combo_text a <> "" ->
  start_time_of_status strptime
    (fst (subprocess_run "watson status"
            (snd (subprocess_run (start_command_of a) (watson a))))) = Exc e ->
  on_start_commanded strptime subprocess_run a =
    (Exc e,
     mkApp (snd (subprocess_run "watson status"
                   (snd (subprocess_run (start_command_of a) (watson a)))))
       (log a ++ [Run (start_command_of a); Run "watson status"])
       (project_combo_text a) (project_combo_values a) (tags_list a)
       (start_at_combo a) (time_label_updater a)
       (start_button_enabled a) (stop_button_enabled a)).
Proof.
  intros Hp He. rewrite (on_start_commanded_run strptime subprocess_run a Hp).
  cbv zeta. now rewrite He.
Qed.


Lemma window_kept_fields (a : App tracker) (w' : tracker) l' l'' p' v' t' s' u' b1' b2' :
  window_kept a ->
  l'' = log a ++ l' ->
  Forall (fun c => known_command c = true) (commands l') ->
  (t' = tags_list a \/ exists o, t' = ComboboxList.apply_op (tags_list a) o) ->
  (TimerLabelUpdater.start_time u' =
     TimerLabelUpdater.start_time (time_label_updater a) \/
   naive (TimerLabelUpdater.start_time u')) ->
  window_kept (mkApp w' l'' p' v' t' s' u' b1' b2').
Proof.
  intros ([os Hos] & Hst & Hlog) -> Hl' Ht Hu. unfold window_kept.
  cbn [tags_list time_label_updater log]. split; [|split].
  - destruct Ht as [-> | [o ->]]; [now exists os|].
    exists (os ++ [o]). rewrite Hos. unfold ComboboxList.run_ops.
    now rewrite fold_left_app.
  - destruct Hu as [-> | Hu]; assumption.
  - rewrite commands_app. apply Forall_app. now split.
Qed.

Lemma startup_kept (now : datetime) (w : tracker) (a : App tracker) :
  startup strptime subprocess_run now w = (Ret tt, a) -> window_kept a.
Proof.
  app_steps.
  destruct (subprocess_run "watson projects" w) as [o1 w1]. app_steps.
  destruct (subprocess_run "watson tags" w1) as [o2 w2]. app_steps.
  destruct (subprocess_run "watson status" w2) as [o3 w3]. app_steps.
  destruct (start_time_of_status strptime o3) as [st|e] eqn:Hst; [|discriminate].
  apply start_time_of_status_naive in Hst.
  pose proof (update_label_start_time now (TimerLabelUpdater.mk "" st)) as Hu.
  destruct (TimerLabelUpdater._update_label now (TimerLabelUpdater.mk "" st))
    as [[[]|e] u]; [|discriminate].
  cbn [snd TimerLabelUpdater.start_time] in Hu. app_steps.
  intros [= <-]. unfold window_kept. cbn [tags_list time_label_updater log].
  split; [|split].
  - now exists [ComboboxList.SetOptions (splitlines o2)].
  - now rewrite Hu.
  - cbn. repeat constructor.
Qed.

Lemma handle_kept (x : action) (a : App tracker) :
  window_kept a -> window_kept (exec (handle strptime subprocess_run x) a).
Proof.
  intros Ha.
  assert (Hnil : Forall (fun c => known_command c = true) (commands []))
    by constructor.
  destruct x as [x | c | w v | | | | | now]; cbn [handle].
  - unfold exec, modify. cbn [snd].
    eapply (window_kept_fields a); [exact Ha|symmetry; apply app_nil_r|exact Hnil|now left|now left].
  - unfold exec, modify. cbn [snd].
    eapply (window_kept_fields a); [exact Ha|symmetry; apply app_nil_r|exact Hnil|now left|now left].
  - unfold exec, on_tags_list.
    destruct (ComboboxList.write w v (tags_list a)) as [r t'] eqn:Hw. cbn [snd].
    eapply (window_kept_fields a); [exact Ha|symmetry; apply app_nil_r|exact Hnil| |now left].
    right. exists (ComboboxList.Event (ComboboxList.Write w v)).
    cbn [ComboboxList.apply_op ComboboxList.step]. unfold exec. now rewrite Hw.
  - unfold exec, bind, gets.
    destruct (start_button_enabled a); [|exact Ha].
    destruct (string_dec (project_combo_text a) "") as [Hp | Hp].
    + rewrite empty_project_alert by exact Hp. cbn [snd].
      eapply (window_kept_fields a); [exact Ha|reflexivity|constructor|now left|now left].
    + rewrite on_start_commanded_run by exact Hp. cbv zeta.
      destruct (start_time_of_status _ _) as [st|e] eqn:Hst; cbn [snd].
      * apply start_time_of_status_naive in Hst.
        eapply (window_kept_fields a); [exact Ha|reflexivity| |now left|now right].
        cbn. constructor; [apply known_start_command|repeat constructor].
      * eapply (window_kept_fields a); [exact Ha|reflexivity| |now left|now left].
        cbn. constructor; [apply known_start_command|repeat constructor].
  - unfold exec, bind, gets.
    destruct (stop_button_enabled a); [|exact Ha].
    rewrite on_stop_commanded_run. cbv zeta. cbn [snd].
    eapply (window_kept_fields a); [exact Ha|reflexivity| | |now right].
    + cbn. repeat constructor.
    + right. eexists (ComboboxList.SetOptions _). reflexivity.
  - unfold exec, show_log. rewrite dialog_run. cbn [snd].
    eapply (window_kept_fields a); [exact Ha|reflexivity| |now left|now left].
    cbn. repeat constructor.
  - unfold exec, show_csv. rewrite dialog_run. cbn [snd].
    eapply (window_kept_fields a); [exact Ha|reflexivity| |now left|now left].
    cbn. repeat constructor.
  - unfold exec, on_time_label_updater.
    pose proof (update_label_start_time now (time_label_updater a)) as Hu.
    destruct (TimerLabelUpdater._update_label now (time_label_updater a))
      as [r u']. cbn [snd] in Hu |- *.
    eapply (window_kept_fields a); [exact Ha|symmetry; apply app_nil_r|exact Hnil|now left|now left].
Qed.

Lemma reachable_kept (a : App tracker) :
  reachable strptime subprocess_run a -> window_kept a.
Proof.
  induction 1 as [now w a Hs | a x _ IH].
  - exact (startup_kept now w a Hs).
  - now apply handle_kept.
Qed.

(** Whatever the user types as project or tags and whatever the tool
    answers, the program runs no command but its own: everything it has
    run in a window it can be in is [watson stop], [watson log],
    [watson report --csv], [watson status], [watson projects],
    [watson tags], or begins with [watson start ]. *)
Theorem reachable_commands (a : App tracker) :
  reachable strptime subprocess_run a ->
  Forall (fun c => known_command c = true) (commands (log a)).
Proof. intros Hr. apply (reachable_kept a Hr). Qed.

(** In a window the program can be in, a tick of the clock and an edit
    of a slot of the tag list return: the start time the timer holds
    has no offset, so the subtraction of line 83 is defined, and the
    handler of the slot finds its combobox and deletes within range. *)
Theorem ticks_and_edits_return (a : App tracker) (x : action) :
  reachable strptime subprocess_run a -> tick_or_edit a x ->
  eval (handle strptime subprocess_run x) a = Ret tt.
Proof.
  intros Hr Hx. destruct (reachable_kept a Hr) as ([os Hos] & Hst & _).
  destruct x as [x | c | w v | | | | | now]; cbn [handle tick_or_edit] in *;
    try (elim Hx).
  - unfold eval, on_tags_list.
    destruct (ComboboxListMore.kept_by_ops os ComboboxList.init) as (Hwf & _ & _);
      [exact ComboboxListFacts.wf_init|discriminate|repeat constructor|].
    rewrite <- Hos in Hwf.
    pose proof (ComboboxListMore.write_listed (tags_list a) w v Hwf Hx) as Hw.
    unfold eval in Hw.
    destruct (ComboboxList.write w v (tags_list a)) as [r t']. exact Hw.
  - unfold eval, on_time_label_updater.
    destruct (TimerLabelUpdaterMore.update_label_naive now
                (time_label_updater a) Hx Hst) as [label ->].
    reflexivity.
Qed.

End AppMore.

Lemma failed_status_after_start_witness :
  project_combo_text garbled_window <> "" /\
  eval (on_start_commanded strptime_fixed garbled_watson) garbled_window =
    Exc ProtocolError /\
  start_button_enabled
    (exec (on_start_commanded strptime_fixed garbled_watson) garbled_window) = true.
Proof.
  assert (Hp : project_combo_text garbled_window <> "") by discriminate.
  assert (He : start_time_of_status strptime_fixed
                 (fst (garbled_watson "watson status"
                         (snd (garbled_watson (start_command_of garbled_window)
                                 (watson garbled_window))))) = Exc ProtocolError)
    by (vm_compute; reflexivity).
  split; [exact Hp|]. unfold eval, exec.
  rewrite (failed_status_after_start strptime_fixed garbled_watson
             garbled_window ProtocolError Hp He).
  split; reflexivity.
Defined.


Lemma reachable_commands_witness :
  reachable strptime_fixed (sim_watson true) started_window /\
  commands (log started_window) =
    ["watson projects"; "watson tags"; "watson status";
     "watson start Alpha + "; "watson status"] /\
  Forall (fun c => known_command c = true) (commands (log started_window)).
Proof.
  assert (Hr : reachable strptime_fixed (sim_watson true) started_window).
  { apply reachable_handle, (reachable_startup _ _ at_10_00_00 false).
    vm_compute. reflexivity. }
  split; [exact Hr|]. split.
  - vm_compute. reflexivity.
  - exact (reachable_commands strptime_fixed (sim_watson true) started_window Hr).
Defined.

Lemma ticks_and_edits_return_witness :
  reachable strptime_fixed (sim_watson true) started_window /\
  tick_or_edit started_window (Tick at_10_02_05) /\
  eval (handle strptime_fixed (sim_watson true) (Tick at_10_02_05))
       started_window = Ret tt.
Proof.
  assert (Hr : reachable strptime_fixed (sim_watson true) started_window).
  { apply reachable_handle, (reachable_startup _ _ at_10_00_00 false).
    vm_compute. reflexivity. }
  assert (Hq : tick_or_edit started_window (Tick at_10_02_05)) by reflexivity.
  split; [exact Hr|]. split; [exact Hq|].
  exact (ticks_and_edits_return strptime_fixed (sim_watson true) started_window
           (Tick at_10_02_05) Hr Hq).
Defined.
